(** * nexus-hub: the RBAC and tenant-scoped authorization core

  A shallow embedding of
    - [backend/core/exceptions/errors.py]
    - [backend/core/security/permissions.py]
    - [backend/core/security/password.py]
    - [backend/core/security/jwt.py]
    - [backend/domains/identity/dependencies.py]
    - [backend/core/exceptions/handlers.py]
    - [backend/domains/identity] (dependencies, models, repository, service)
    - [backend/domains/crm/service.py]
  followed by the properties proved about them. *)

From Stdlib Require Import ZArith String Ascii Lia.
From stdpp Require Import base decidable option list countable finite gmap strings pretty.

Local Open Scope string_scope.
Local Open Scope list_scope.

(** ** Python values and exceptions *)

Module Py.

(** The part of Python's [Any] that travels in the claim maps and error
    details of this code base: [None], booleans, integers, strings, lists
    of strings (the [roles] claim) and timezone-aware [datetime]s, kept as
    microseconds since the epoch. *)
Inductive value :=
| VNone
| VBool (b : bool)
| VInt (z : Z)
| VStr (s : string)
| VStrList (l : list string)
| VDatetime (us : Z).

#[global] Instance value_eq_dec : EqDecision value.
Proof. solve_decision. Defined.

(** Truthiness, as used by [if x:] and [not x]. A [datetime] is always
    true. *)
Definition truthy (v : value) : bool :=
  match v with
  | VNone => false
  | VBool b => b
  | VInt z => negb (z =? 0)%Z
  | VStr s => negb (String.eqb s "")
  | VStrList l => match l with [] => false | _ => true end
  | VDatetime _ => true
  end.

(** A [dict] with string keys, as the list of its items in insertion
    order; in a dict no key occurs twice. *)
Abbreviation dict := (list (string * value)).

Definition is_dict (d : dict) : Prop := NoDup d.*1.

(** [d[k]] where the key is present. *)
Fixpoint dict_get (d : dict) (k : string) : option value :=
  match d with
  | [] => None
  | (k', v) :: d' => if String.eqb k' k then Some v else dict_get d' k
  end.

(** [d[k] = v]: a key already present keeps its place, a new one goes to
    the end. *)
Fixpoint dict_set (d : dict) (k : string) (v : value) : dict :=
  match d with
  | [] => [(k, v)]
  | (k', v') :: d' =>
      if String.eqb k' k then (k', v) :: d' else (k', v') :: dict_set d' k v
  end.

(** [d.update(other)]. *)
Definition dict_update (d other : dict) : dict :=
  foldl (λ acc kv, dict_set acc kv.1 kv.2) d other.

(** [d.get(k)]: a missing key gives [None]. *)
Definition get (d : dict) (k : string) : value :=
  default VNone (dict_get d k).

(** Exceptions of the argon2 library that [password.py] imports. *)
Inductive argon2_error :=
| VerificationError
| VerifyMismatchError
| InvalidHashError.

(** Classes of [core/exceptions/errors.py]. *)
Inductive nexus_class :=
| AuthenticationError_
| AuthorizationError_
| NotFoundError_
| ValidationError_.

(** [NexusHubException]: the instance attributes set by [__init__]. *)
Record NexusHubException := mkNexus {
  exc_class : nexus_class;
  message : string;
  status_code : Z;
  details : gmap string value
}.

Inductive exn :=
| ValueError
| TypeError
| JWTError (msg : string)
| Argon2Error (e : argon2_error)
| NexusHub (e : NexusHubException)
| OtherException (name : string).

(** A call either raises or returns. *)
Definition Result (A : Type) : Type := exn + A.

Definition ret {A} (a : A) : Result A := inr a.
Definition raise {A} (e : exn) : Result A := inl e.
Definition bind {A B} (m : Result A) (k : A → Result B) : Result B :=
  match m with
  | inl e => inl e
  | inr a => k a
  end.

Definition is_ValueError (e : exn) : bool :=
  match e with ValueError => true | _ => false end.

(** What one pass through a loop body does to the enclosing function:
    [return v], or go on with the next iteration (falling off the end of
    the body and [continue] alike). *)
Inductive loop_ctl (A : Type) :=
| Return (a : A)
| Continue.
Arguments Return {A} a.
Arguments Continue {A}.

(** [try: body except <classes>: handler], the classes given as a
    predicate on the raised exception. *)
Definition try_except {A} (body : Result A) (catches : exn → bool)
    (handler : exn → Result A) : Result A :=
  match body with
  | inl e => if catches e then handler e else inl e
  | inr a => inr a
  end.

End Py.

Notation "x <- m ;; k" := (Py.bind m (fun x => k))
(at level 100, m at next level, right associativity).

(** ** core/exceptions/errors.py *)

Module Errors.
Import Py.

Definition NexusHubException_init (c : nexus_class) (message : string)
    (status_code : Z) (details : option (gmap string value)) : NexusHubException :=
  {| exc_class := c;
     message := message;
     status_code := status_code;
     details := default ∅ details |}.

Definition AuthenticationError (message : string)
    (details : option (gmap string value)) : exn :=
  NexusHub (NexusHubException_init AuthenticationError_ message 401 details).

Definition NotFoundError (resource : string)
    (details : option (gmap string value)) : exn :=
  let message := resource +:+ " not found" in
  NexusHub (NexusHubException_init NotFoundError_ message 404 details).

Definition is_AuthenticationError (e : exn) : bool :=
  match e with
  | NexusHub x => match exc_class x with AuthenticationError_ => true | _ => false end
  | _ => false
  end.

Definition is_NotFoundError (e : exn) : bool :=
  match e with
  | NexusHub x => match exc_class x with NotFoundError_ => true | _ => false end
  | _ => false
  end.

End Errors.

(** ** core/security/permissions.py *)

Module Permissions.
Import Py.

Inductive Permission :=
| USER_READ | USER_WRITE | USER_DELETE
| CONTACT_READ | CONTACT_WRITE | CONTACT_DELETE
| COMPANY_READ | COMPANY_WRITE | COMPANY_DELETE
| DEAL_READ | DEAL_WRITE | DEAL_DELETE
| PROJECT_READ | PROJECT_WRITE | PROJECT_DELETE
| TASK_READ | TASK_WRITE | TASK_DELETE
| TEAM_READ | TEAM_WRITE | TEAM_DELETE
| AI_USE | AI_ADMIN
| PLUGIN_READ | PLUGIN_INSTALL | PLUGIN_MANAGE
| ADMIN_READ | ADMIN_WRITE | SETTINGS_MANAGE | AUDIT_READ.

Definition Permission_value (p : Permission) : string :=
  match p with
  | USER_READ => "user:read" | USER_WRITE => "user:write"
  | USER_DELETE => "user:delete"
  | CONTACT_READ => "contact:read" | CONTACT_WRITE => "contact:write"
  | CONTACT_DELETE => "contact:delete"
  | COMPANY_READ => "company:read" | COMPANY_WRITE => "company:write"
  | COMPANY_DELETE => "company:delete"
  | DEAL_READ => "deal:read" | DEAL_WRITE => "deal:write"
  | DEAL_DELETE => "deal:delete"
  | PROJECT_READ => "project:read" | PROJECT_WRITE => "project:write"
  | PROJECT_DELETE => "project:delete"
  | TASK_READ => "task:read" | TASK_WRITE => "task:write"
  | TASK_DELETE => "task:delete"
  | TEAM_READ => "team:read" | TEAM_WRITE => "team:write"
  | TEAM_DELETE => "team:delete"
  | AI_USE => "ai:use" | AI_ADMIN => "ai:admin"
  | PLUGIN_READ => "plugin:read" | PLUGIN_INSTALL => "plugin:install"
  | PLUGIN_MANAGE => "plugin:manage"
  | ADMIN_READ => "admin:read" | ADMIN_WRITE => "admin:write"
  | SETTINGS_MANAGE => "settings:manage" | AUDIT_READ => "audit:read"
  end.

#[global] Instance Permission_eq_dec : EqDecision Permission.
Proof. solve_decision. Defined.

(** [list(Permission)]: the members in definition order. *)
Definition Permission_members : list Permission :=
  [ USER_READ; USER_WRITE; USER_DELETE;
    CONTACT_READ; CONTACT_WRITE; CONTACT_DELETE;
    COMPANY_READ; COMPANY_WRITE; COMPANY_DELETE;
    DEAL_READ; DEAL_WRITE; DEAL_DELETE;
    PROJECT_READ; PROJECT_WRITE; PROJECT_DELETE;
    TASK_READ; TASK_WRITE; TASK_DELETE;
    TEAM_READ; TEAM_WRITE; TEAM_DELETE;
    AI_USE; AI_ADMIN;
    PLUGIN_READ; PLUGIN_INSTALL; PLUGIN_MANAGE;
    ADMIN_READ; ADMIN_WRITE; SETTINGS_MANAGE; AUDIT_READ ].

#[global] Program Instance Permission_finite : Finite Permission :=
  {| enum := Permission_members |}.
Next Obligation.
  apply (bool_decide_unpack _). vm_compute. exact I.
Qed.
Next Obligation. intros p. destruct p; vm_compute; set_solver. Qed.

Inductive Role :=
| SUPER_ADMIN | ADMIN | MANAGER | DEVELOPER | USER | GUEST.

Definition Role_value (r : Role) : string :=
  match r with
  | SUPER_ADMIN => "super_admin"
  | ADMIN => "admin"
  | MANAGER => "manager"
  | DEVELOPER => "developer"
  | USER => "user"
  | GUEST => "guest"
  end.

#[global] Instance Role_eq_dec : EqDecision Role.
Proof. solve_decision. Defined.

Definition Role_members : list Role :=
  [SUPER_ADMIN; ADMIN; MANAGER; DEVELOPER; USER; GUEST].

(** [Role(role_str)]: lookup of a member by value; [ValueError] when no
    member has that value. *)
Definition Role_call (role_str : string) : Result Role :=
  match List.find (fun r => String.eqb (Role_value r) role_str) Role_members with
  | Some r => ret r
  | None => raise ValueError
  end.

(** The dict literal [ROLE_PERMISSIONS], in source order. *)
Definition ROLE_PERMISSIONS : list (Role * list Permission) :=
  [ (SUPER_ADMIN, Permission_members);
    (ADMIN,
      [ USER_READ; USER_WRITE;
        CONTACT_READ; CONTACT_WRITE; CONTACT_DELETE;
        COMPANY_READ; COMPANY_WRITE; COMPANY_DELETE;
        DEAL_READ; DEAL_WRITE; DEAL_DELETE;
        PROJECT_READ; PROJECT_WRITE; PROJECT_DELETE;
        TASK_READ; TASK_WRITE; TASK_DELETE;
        TEAM_READ; TEAM_WRITE; TEAM_DELETE;
        AI_USE; PLUGIN_READ; PLUGIN_INSTALL;
        ADMIN_READ; SETTINGS_MANAGE; AUDIT_READ ]);
    (MANAGER,
      [ USER_READ;
        CONTACT_READ; CONTACT_WRITE;
        COMPANY_READ; COMPANY_WRITE;
        DEAL_READ; DEAL_WRITE;
        PROJECT_READ; PROJECT_WRITE;
        TASK_READ; TASK_WRITE;
        TEAM_READ; TEAM_WRITE;
        AI_USE; PLUGIN_READ ]);
    (DEVELOPER,
      [ USER_READ; CONTACT_READ; COMPANY_READ; DEAL_READ;
        PROJECT_READ; PROJECT_WRITE;
        TASK_READ; TASK_WRITE;
        TEAM_READ; AI_USE; PLUGIN_READ ]);
    (USER,
      [ USER_READ; CONTACT_READ; COMPANY_READ; DEAL_READ;
        PROJECT_READ; TASK_READ; TASK_WRITE;
        TEAM_READ; AI_USE ]);
    (GUEST, [ PROJECT_READ; TASK_READ ]) ].

(** [d.get(k, default)] on a dict given by its items. *)
Definition dict_get {K V} `{EqDecision K} (d : list (K * V)) (k : K) (dflt : V) : V :=
  match List.find (fun kv => bool_decide (kv.1 = k)) d with
  | Some kv => kv.2
  | None => dflt
  end.

Definition get_role_permissions (role : Role) : list Permission :=
  dict_get ROLE_PERMISSIONS role [].

(** [x in l] on a list. *)
Definition list_contains {A} `{EqDecision A} (x : A) (l : list A) : bool :=
  existsb (fun y => bool_decide (y = x)) l.

(** The [for] loop of [has_permission]: the [try] body either returns
    [True] from the function or falls through; a [ValueError] raised in
    it is handled by [continue]. *)
Fixpoint has_permission (user_roles : list string)
    (required_permission : Permission) : Result bool :=
  match user_roles with
  | [] => ret false
  | role_str :: rest =>
      c <- try_except
             (role <- Role_call role_str ;;
              let permissions := get_role_permissions role in
              if list_contains required_permission permissions
              then ret (Return true)
              else ret Continue)
             is_ValueError
             (fun _ => ret Continue) ;;
      match c with
      | Return b => ret b
      | Continue => has_permission rest required_permission
      end
  end.

(** The [for] loop of [get_user_permissions], threading the set
    [permissions]. *)
Fixpoint get_user_permissions_loop (user_roles : list string)
    (permissions : gset Permission) : Result (gset Permission) :=
  match user_roles with
  | [] => ret permissions
  | role_str :: rest =>
      permissions' <- try_except
             (role <- Role_call role_str ;;
              ret (permissions ∪ list_to_set (get_role_permissions role)))
             is_ValueError
             (fun _ => ret permissions) ;;
      get_user_permissions_loop rest permissions'
  end.

Definition get_user_permissions (user_roles : list string)
    : Result (gset Permission) :=
  get_user_permissions_loop user_roles ∅.

End Permissions.

(** ** Builtins and libraries the code calls *)

Module Lib.
Import Py.

(** Python's [str()] (as the f-string applies it); the reading of a
    string by [int()], the integer it denotes or nothing where [int()]
    raises [ValueError]; and the exception [datetime.fromtimestamp] raises
    for a second outside the years 1 to 9999, which is [ValueError],
    [OverflowError] or [OSError] depending on the distance and the
    platform. *)
Class Builtins := {
  py_str : value → string;
  int_of_str : string → option Z;
  fromtimestamp_error : Z → exn
}.

(** [int(v)]: an [int] as it is, a [bool] as 0 or 1, a string by its
    reading, anything else a [TypeError]. *)
Definition py_int `{builtins : Builtins} (v : value) : Result Z :=
  match v with
  | VInt z => ret z
  | VBool b => ret (if b then 1 else 0)%Z
  | VStr s =>
      match int_of_str s with
      | Some z => ret z
      | None => raise ValueError
      end
  | VNone | VStrList _ | VDatetime _ => raise TypeError
  end.

(** The [PasswordHasher] object [ph] of the argon2 binding, with the two
    methods [password.py] calls on it. [ph_verify hash password] returns
    (Python: returns [True]) or raises. *)
Class PasswordHasher := {
  ph_verify : string → string → Result unit;
  ph_check_needs_rehash : string → Result bool
}.

(** [jose.jwt]: [jwt_encode claims key algorithm] and
    [jwt_decode token key algorithms now], the last argument being the
    reading of the clock the library takes to check the time claims
    (microseconds since the epoch, like every instant here). The decoder
    reads the clock once for [nbf] and once for [exp]; the two readings
    are taken to fall in the same second. *)
Class Jose := {
  jwt_encode : dict → string → string → Result string;
  jwt_decode : string → string → list string → Z → Result dict
}.

(** Seconds since the epoch of an instant, as [timegm(utctimetuple())]
    computes them. *)
Definition timegm (us : Z) : Z := (us `div` 1000000)%Z.

(** The claims as the token carries them: the encoder turns a [datetime]
    under [exp], [iat] or [nbf] into integer seconds, and leaves the order
    of the keys as it is. *)
Definition numeric_date (v : value) : value :=
  match v with
  | VDatetime us => VInt (timegm us)
  | _ => v
  end.

Definition is_time_claim (k : string) : bool :=
  String.eqb k "exp" || String.eqb k "iat" || String.eqb k "nbf".

Definition numeric_dates (claims : dict) : dict :=
  map (λ kv, if is_time_claim kv.1 then (kv.1, numeric_date kv.2) else kv) claims.

Section ClaimValidation.
Context `{builtins : Builtins}.

(** [try: int(v) except ValueError: raise JWTClaimsError(msg)]; the
    claims error is a [JWTError]. *)
Definition int_claim (v : value) (msg : string) : Result Z :=
  try_except (py_int v) is_ValueError (λ _, raise (JWTError msg)).

(** The checks the decoder makes on the registered claims, with the
    options [decode_token] leaves at their defaults: no leeway, and no
    audience, issuer, subject or access token to compare with. *)
Definition validate_iat (claims : dict) : Result unit :=
  match dict_get claims "iat" with
  | None => ret tt
  | Some v =>
      _ <- int_claim v "Issued At claim (iat) must be an integer." ;;
      ret tt
  end.

Definition validate_nbf (claims : dict) (now : Z) : Result unit :=
  match dict_get claims "nbf" with
  | None => ret tt
  | Some v =>
      nbf <- int_claim v "Not Before claim (nbf) must be an integer." ;;
      if (timegm now <? nbf)%Z
      then raise (JWTError "The token is not yet valid (nbf)")
      else ret tt
  end.

Definition validate_exp (claims : dict) (now : Z) : Result unit :=
  match dict_get claims "exp" with
  | None => ret tt
  | Some v =>
      exp <- int_claim v "Expiration Time claim (exp) must be an integer." ;;
      if (exp <? timegm now)%Z
      then raise (JWTError "Signature has expired.")
      else ret tt
  end.

(** No audience is given, so an [aud] claim of the right form never
    contains it. *)
Definition validate_aud (claims : dict) : Result unit :=
  match dict_get claims "aud" with
  | None => ret tt
  | Some (VStr _) | Some (VStrList _) => raise (JWTError "Invalid audience")
  | Some _ => raise (JWTError "Invalid claim format in token")
  end.

Definition validate_sub (claims : dict) : Result unit :=
  match dict_get claims "sub" with
  | None | Some (VStr _) => ret tt
  | Some _ => raise (JWTError "Subject must be a string.")
  end.

Definition validate_jti (claims : dict) : Result unit :=
  match dict_get claims "jti" with
  | None | Some (VStr _) => ret tt
  | Some _ => raise (JWTError "JWT ID must be a string.")
  end.

Definition validate_at_hash (claims : dict) : Result unit :=
  match dict_get claims "at_hash" with
  | None => ret tt
  | Some _ =>
      raise (JWTError "No access_token provided to compare against at_hash claim.")
  end.

Definition validate_claims (claims : dict) (now : Z) : Result unit :=
  _ <- validate_iat claims ;;
  _ <- validate_nbf claims now ;;
  _ <- validate_exp claims now ;;
  _ <- validate_aud claims ;;
  _ <- validate_sub claims ;;
  _ <- validate_jti claims ;;
  validate_at_hash claims.

(** The contract of the encoder and the decoder for one key and one
    algorithm: a token the encoder has issued for a dict is decoded, with
    that key and algorithm, to the claims it was made from, in their order
    and with the time claims as integer seconds, provided these claims pass
    the decoder's checks at the time of decoding; if they fail one, the
    decoder raises what the check raises. *)
Definition jose_roundtrip `{Jose} (key alg : string) : Prop :=
  ∀ (claims : dict) (token : string) (now : Z),
    is_dict claims →
    jwt_encode claims key alg = inr token →
    jwt_decode token key [alg] now
    = (_ <- validate_claims (numeric_dates claims) now ;;
       ret (numeric_dates claims)).

End ClaimValidation.
End Lib.


(** ** core/config/settings.py *)

Module Config.

Record Settings := {
  SECRET_KEY : string;
  ALGORITHM : string;
  ACCESS_TOKEN_EXPIRE_MINUTES : Z;
  REFRESH_TOKEN_EXPIRE_DAYS : Z
}.

(** The defaults of the [Settings] class; [SECRET_KEY] has none. *)
Definition default_settings (secret_key : string) : Settings :=
  {| SECRET_KEY := secret_key;
     ALGORITHM := "HS256";
     ACCESS_TOKEN_EXPIRE_MINUTES := 60;
     REFRESH_TOKEN_EXPIRE_DAYS := 30 |}.

End Config.

(** ** core/security/password.py *)

Module Password.
Import Py Lib.

Section WithHasher.
Context `{ph : PasswordHasher}.

(** [except (VerificationError, VerifyMismatchError, InvalidHashError)]. *)
Definition verify_password_catches (e : exn) : bool :=
  match e with
  | Argon2Error VerificationError => true
  | Argon2Error VerifyMismatchError => true
  | Argon2Error InvalidHashError => true
  | _ => false
  end.

Definition verify_password (plain_password hashed_password : string) : Result bool :=
  try_except
    (_ <- ph_verify hashed_password plain_password ;;
     rehash <- ph_check_needs_rehash hashed_password ;;
     _ <- (if rehash then ret tt else ret tt) ;;
     ret true)
    verify_password_catches
    (λ _, ret false).

(** [except Exception]: every exception of the model is one. *)
Definition is_Exception (e : exn) : bool := true.

Definition needs_rehash (hashed_password : string) : Result bool :=
  try_except
    (ph_check_needs_rehash hashed_password)
    is_Exception
    (λ _, ret true).

End WithHasher.
End Password.

(** ** core/security/jwt.py *)

Module Jwt.
Import Py Lib Errors Config.

Definition OverflowError : exn := OtherException "OverflowError".

(** The instants a [datetime] can hold, years 1 to 9999, and the
    durations a [timedelta] can hold, up to 999999999 days either way, in
    microseconds. *)
Definition DATETIME_MIN : Z := (-62135596800000000)%Z.
Definition DATETIME_MAX : Z := 253402300799999999%Z.
Definition TIMEDELTA_MIN : Z := (-86399999913600000000)%Z.
Definition TIMEDELTA_MAX : Z := 86399999999999999999%Z.

(** [timedelta(minutes=m)] and [timedelta(days=d)]. *)
Definition timedelta_of (us : Z) : Result Z :=
  if ((TIMEDELTA_MIN <=? us) && (us <=? TIMEDELTA_MAX))%Z
  then ret us
  else raise OverflowError.

Definition timedelta_minutes (m : Z) : Result Z := timedelta_of (m * 60 * 1000000)%Z.
Definition timedelta_days (d : Z) : Result Z := timedelta_of (d * 86400 * 1000000)%Z.

(** [d + delta] on a [datetime]. *)
Definition datetime_add (d delta : Z) : Result Z :=
  let r := (d + delta)%Z in
  if ((DATETIME_MIN <=? r) && (r <=? DATETIME_MAX))%Z
  then ret r
  else raise OverflowError.

(** Truth value of an optional [timedelta]: [None] and the zero duration
    are false. *)
Definition timedelta_truthy (d : option Z) : bool :=
  match d with
  | Some d => negb (d =? 0)%Z
  | None => false
  end.

(** [to_encode.update({"exp": ..., "iat": ..., "type": ...})]. *)
Definition stamp (to_encode : dict) (expire iat : Z) (type : string) : dict :=
  dict_update to_encode
    [("exp", VDatetime expire); ("iat", VDatetime iat); ("type", VStr type)].

Section WithLibraries.
Context `{builtins : Builtins} `{jose : Jose} (settings : Settings).

(** [datetime.fromtimestamp(ts, tz=timezone.utc)] for an integer number of
    seconds ([bool] is an [int]); other values are a [TypeError]. *)
Definition fromtimestamp_seconds (z : Z) : Result Z :=
  if ((-62135596800 <=? z) && (z <=? 253402300799))%Z
  then ret (z * 1000000)%Z
  else raise (fromtimestamp_error z).

Definition datetime_fromtimestamp (ts : value) : Result Z :=
  match ts with
  | VInt z => fromtimestamp_seconds z
  | VBool b => fromtimestamp_seconds (if b then 1 else 0)%Z
  | _ => raise TypeError
  end.

(** The local [expire] of [create_access_token], [now] being the reading
    of the clock. *)
Definition access_expire (expires_delta : option Z) (now : Z) : Result Z :=
  if timedelta_truthy expires_delta
  then datetime_add now (default 0%Z expires_delta)
  else
    delta <- timedelta_minutes (ACCESS_TOKEN_EXPIRE_MINUTES settings) ;;
    datetime_add now delta.

(** [now] and [now_iat] are the two readings of the clock, for [exp] and
    for [iat]; they and [expires_delta] are values a [datetime] and a
    [timedelta] can hold. *)
Definition create_access_token (data : dict)
    (expires_delta : option Z) (now now_iat : Z) : Result string :=
  let to_encode := data in
  expire <- access_expire expires_delta now ;;
  let to_encode := stamp to_encode expire now_iat "access" in
  encoded_jwt <- jwt_encode to_encode (SECRET_KEY settings) (ALGORITHM settings) ;;
  ret encoded_jwt.

Definition refresh_expire (expires_delta : option Z) (now : Z) : Result Z :=
  if timedelta_truthy expires_delta
  then datetime_add now (default 0%Z expires_delta)
  else
    delta <- timedelta_days (REFRESH_TOKEN_EXPIRE_DAYS settings) ;;
    datetime_add now delta.

Definition create_refresh_token (data : dict)
    (expires_delta : option Z) (now now_iat : Z) : Result string :=
  let to_encode := data in
  expire <- refresh_expire expires_delta now ;;
  let to_encode := stamp to_encode expire now_iat "refresh" in
  encoded_jwt <- jwt_encode to_encode (SECRET_KEY settings) (ALGORITHM settings) ;;
  ret encoded_jwt.

(** [except JWTError]: the class and its subclasses. *)
Definition is_JWTError (e : exn) : bool :=
  match e with JWTError _ => true | _ => false end.

(** [str(e)] of a caught [JWTError]. *)
Definition exn_str (e : exn) : string :=
  match e with JWTError msg => msg | _ => "" end.

(** [now] is the instant at which the library checks the token. *)
Definition decode_token (token : string) (now : Z) : Result dict :=
  try_except
    (payload <- jwt_decode token (SECRET_KEY settings) [ALGORITHM settings] now ;;
     ret payload)
    is_JWTError
    (λ e, raise (AuthenticationError "Invalid or expired token"
                   (Some {[ "error" := VStr (exn_str e) ]}))).

Definition verify_token_type (payload : dict)
    (expected_type : string) : Result unit :=
  let token_type := get payload "type" in
  if bool_decide (token_type ≠ VStr expected_type)
  then raise (AuthenticationError
                ("Invalid token type. Expected " +:+ expected_type
                 +:+ ", got " +:+ py_str token_type) None)
  else ret tt.

Definition get_token_expiry (token : string) (now : Z) : Result (option Z) :=
  r <- try_except
         (payload <- decode_token token now ;;
          let exp_timestamp := get payload "exp" in
          if truthy exp_timestamp
          then (d <- datetime_fromtimestamp exp_timestamp ;; ret (Return d))
          else ret Continue)
         is_AuthenticationError
         (λ _, ret Continue) ;;
  match r with
  | Return d => ret (Some d)
  | Continue => ret None
  end.

(** [now] is the instant of the decoding inside [get_token_expiry],
    [now_cmp] the later reading the expiry is compared with. *)
Definition is_token_expired (token : string) (now now_cmp : Z) : Result bool :=
  expiry <- get_token_expiry token now ;;
  match expiry with
  | None => ret true
  | Some expiry => ret (expiry <? now_cmp)%Z
  end.

End WithLibraries.
End Jwt.

(** ** domains/identity/dependencies.py *)

Module Dependencies.
Import Py Lib Errors Config Jwt.

Section WithLibraries.
Context `{builtins : Builtins} `{jose : Jose} (settings : Settings).

Definition get_current_user_id (token : string) (now : Z) : Result Z :=
  if negb (truthy (VStr token))
  then raise (AuthenticationError "Not authenticated" None)
  else
    payload <- decode_token settings token now ;;
    let user_id := get payload "sub" in
    if negb (truthy user_id)
    then raise (AuthenticationError "Invalid token payload" None)
    else py_int user_id.

End WithLibraries.
End Dependencies.


(** ** domains/crm/service.py *)

Module Crm.
Import Py Errors.

(** A row of the [companies] table, with the columns the service reads.
    A [UUID] is its 128-bit number. *)
Record Company := {
  id : N;
  tenant_id : N;
  name : string;
  parent_company_id : option N;
  version : Z
}.

(** [BaseRepository.get]: the row with that primary key, or [None]. The
    table is keyed by its primary key. *)
Definition repository_get (companies : gmap N Company) (id : N) : Result (option Company) :=
  ret (companies !! id).

(** [CompanyService.get_company]. An ORM object is always true, so
    [not company] holds of [None] only. *)
Definition get_company (companies : gmap N Company)
    (company_id tenant_id : N) : Result Company :=
  company <- repository_get companies company_id ;;
  match company with
  | None => raise (NotFoundError "Company not found" None)
  | Some c =>
      if bool_decide (Crm.tenant_id c ≠ tenant_id)
      then raise (NotFoundError "Company not found" None)
      else ret c
  end.

End Crm.

(** ** Stand-ins for the libraries

    Executable instances of the interfaces of [Lib], on which the functions
    above can be run on concrete inputs. They have the interface and the
    observable behaviour the code relies on and none of the cryptography:
    the token and the hash spell out what the real ones conceal. *)

Module Reference.
Import Py Lib.

(** *** Builtins *)

Definition digit_value (c : ascii) : option Z :=
  let n := Z.of_nat (nat_of_ascii c) in
  if ((48 <=? n) && (n <=? 57))%Z then Some (n - 48)%Z else None.

(** The characters [int()] strips: tab, line feed, vertical tab, form
    feed, carriage return and space. *)
Definition is_space (c : ascii) : bool :=
  let n := Z.of_nat (nat_of_ascii c) in
  ((9 <=? n) && (n <=? 13) || (n =? 32))%Z.

Fixpoint lstrip (s : string) : string :=
  match s with
  | EmptyString => EmptyString
  | String c s' => if is_space c then lstrip s' else s
  end.

Fixpoint all_space (s : string) : bool :=
  match s with
  | EmptyString => true
  | String c s' => is_space c && all_space s'
  end.

(** Digits, single underscores between them, then spaces to the end;
    [after_digit] tells whether the character before was a digit. *)
Fixpoint digits_value (s : string) (acc : Z) (after_digit : bool) : option Z :=
  match s with
  | EmptyString => if after_digit then Some acc else None
  | String c s' =>
      match digit_value c with
      | Some d => digits_value s' (10 * acc + d)%Z true
      | None =>
          if Ascii.eqb c "_" then
            if after_digit then digits_value s' acc false else None
          else if after_digit && all_space s then Some acc
          else None
      end
  end.

(** [int(s)] in base ten on a string of ASCII characters: spaces around, an
    optional sign, digits with single underscores between them. The digits
    and spaces of other scripts, which [int()] reads too, are outside this
    stand-in. *)
Definition ref_int_of_str (s : string) : option Z :=
  match lstrip s with
  | String "-" ds => option_map Z.opp (digits_value ds 0 false)
  | String "+" ds => digits_value ds 0 false
  | ds => digits_value ds 0 false
  end.

(** Exact on [None], booleans, integers and strings; a list or a
    [datetime] is only sketched. *)
Definition ref_str (v : value) : string :=
  match v with
  | VNone => "None"
  | VBool true => "True"
  | VBool false => "False"
  | VInt z => pretty z
  | VStr s => s
  | VStrList l => "[" +:+ String.concat ", " l +:+ "]"
  | VDatetime us => "datetime:" +:+ pretty us
  end.

Definition ref_fromtimestamp_error (z : Z) : exn :=
  if ((-9223372036854775808 <=? z) && (z <=? 9223372036854775807))%Z
  then ValueError
  else OtherException "OverflowError".

#[export] Instance ref_builtins : Builtins :=
  {| py_str := ref_str;
     int_of_str := ref_int_of_str;
     fromtimestamp_error := ref_fromtimestamp_error |}.

(** *** Password hasher *)

Fixpoint strip_prefix (prefix s : string) : option string :=
  match prefix, s with
  | EmptyString, _ => Some s
  | String a prefix', String b s' =>
      if Ascii.eqb a b then strip_prefix prefix' s' else None
  | String _ _, EmptyString => None
  end.

(** A hash is a parameter header followed by the password itself:
    ["$current$"] for the configured parameters, ["$old$"] for weaker
    ones. *)
Definition hash_body (hash : string) : option (bool * string) :=
  match strip_prefix "$current$" hash with
  | Some pw => Some (false, pw)
  | None =>
      match strip_prefix "$old$" hash with
      | Some pw => Some (true, pw)
      | None => None
      end
  end.

(** A string is kept as the bytes of its UTF-8 form, so its characters
    are all ASCII when every byte is below 128. *)
Fixpoint is_ascii (s : string) : bool :=
  match s with
  | EmptyString => true
  | String c s' => (nat_of_ascii c <? 128)%nat && is_ascii s'
  end.

(** The hasher first encodes the hash as ASCII, and a hash that is not
    ASCII stops it there with a [UnicodeEncodeError]. *)
Definition ref_verify (hash password : string) : Result unit :=
  if negb (is_ascii hash) then raise (OtherException "UnicodeEncodeError")
  else
    match hash_body hash with
    | Some (_, pw) =>
        if String.eqb pw password then ret tt
        else raise (Argon2Error VerifyMismatchError)
    | None => raise (Argon2Error InvalidHashError)
    end.

Definition ref_check_needs_rehash (hash : string) : Result bool :=
  match hash_body hash with
  | Some (outdated, _) => ret outdated
  | None => raise (Argon2Error InvalidHashError)
  end.

#[export] Instance ref_hasher : PasswordHasher :=
  {| ph_verify := ref_verify; ph_check_needs_rehash := ref_check_needs_rehash |}.

(** *** Token codec

    A token is the key, the algorithm and the claims written one after the
    other. Strings are length-prefixed in unary: [n] ones, a zero, then the
    [n] characters. *)

Fixpoint ones (n : nat) (rest : string) : string :=
  match n with
  | O => String "0" rest
  | S n' => String "1" (ones n' rest)
  end.

Fixpoint get_ones (t : string) : option (nat * string) :=
  match t with
  | EmptyString => None
  | String c t' =>
      if Ascii.eqb c "1" then
        match get_ones t' with
        | Some (n, rest) => Some (S n, rest)
        | None => None
        end
      else if Ascii.eqb c "0" then Some (O, t')
      else None
  end.

Fixpoint take_chars (n : nat) (t : string) : option (string * string) :=
  match n with
  | O => Some (EmptyString, t)
  | S n' =>
      match t with
      | EmptyString => None
      | String c t' =>
          match take_chars n' t' with
          | Some (s, rest) => Some (String c s, rest)
          | None => None
          end
      end
  end.

Definition put_str (s rest : string) : string :=
  ones (String.length s) (s +:+ rest).

Definition get_str (t : string) : option (string * string) :=
  match get_ones t with
  | Some (n, t') => take_chars n t'
  | None => None
  end.

(** Integers: a sign letter, then the binary digits of the magnitude from
    the least significant one, the leading one left out. *)
Fixpoint put_pos (p : positive) : string :=
  match p with
  | xH => EmptyString
  | xO p' => String "0" (put_pos p')
  | xI p' => String "1" (put_pos p')
  end.

Fixpoint get_pos (s : string) : positive :=
  match s with
  | EmptyString => xH
  | String c s' => if Ascii.eqb c "1" then xI (get_pos s') else xO (get_pos s')
  end.

Definition put_Z (z : Z) : string :=
  match z with
  | Z0 => "z"
  | Zpos p => String "p" (put_pos p)
  | Zneg p => String "n" (put_pos p)
  end.

Definition get_Z (s : string) : option Z :=
  match s with
  | String c s' =>
      if Ascii.eqb c "z" then Some Z0
      else if Ascii.eqb c "p" then Some (Zpos (get_pos s'))
      else if Ascii.eqb c "n" then Some (Zneg (get_pos s'))
      else None
  | EmptyString => None
  end.

Definition put_strs (l : list string) (rest : string) : string :=
  ones (length l) (foldr put_str rest l).

Fixpoint get_n_strs (n : nat) (t : string) : option (list string * string) :=
  match n with
  | O => Some ([], t)
  | S n' =>
      match get_str t with
      | Some (s, t') =>
          match get_n_strs n' t' with
          | Some (l, rest) => Some (s :: l, rest)
          | None => None
          end
      | None => None
      end
  end.

Definition get_strs (t : string) : option (list string * string) :=
  match get_ones t with
  | Some (n, t') => get_n_strs n t'
  | None => None
  end.

Definition put_value (v : value) (rest : string) : string :=
  match v with
  | VNone => String "N" rest
  | VBool true => String "T" rest
  | VBool false => String "F" rest
  | VInt z => String "I" (put_str (put_Z z) rest)
  | VStr s => String "S" (put_str s rest)
  | VStrList l => String "L" (put_strs l rest)
  | VDatetime us => String "D" (put_str (put_Z us) rest)
  end.

Definition get_value (t : string) : option (value * string) :=
  match t with
  | EmptyString => None
  | String c t' =>
      if Ascii.eqb c "N" then Some (VNone, t')
      else if Ascii.eqb c "T" then Some (VBool true, t')
      else if Ascii.eqb c "F" then Some (VBool false, t')
      else if Ascii.eqb c "I" then
        match get_str t' with
        | Some (s, rest) => option_map (λ z, (VInt z, rest)) (get_Z s)
        | None => None
        end
      else if Ascii.eqb c "S" then
        match get_str t' with
        | Some (s, rest) => Some (VStr s, rest)
        | None => None
        end
      else if Ascii.eqb c "L" then
        match get_strs t' with
        | Some (l, rest) => Some (VStrList l, rest)
        | None => None
        end
      else if Ascii.eqb c "D" then
        match get_str t' with
        | Some (s, rest) => option_map (λ z, (VDatetime z, rest)) (get_Z s)
        | None => None
        end
      else None
  end.

Definition put_item (kv : string * value) (rest : string) : string :=
  put_str kv.1 (put_value kv.2 rest).

Definition put_items (l : dict) (rest : string) : string :=
  ones (length l) (foldr put_item rest l).

Fixpoint get_n_items (n : nat) (t : string) : option (dict * string) :=
  match n with
  | O => Some ([], t)
  | S n' =>
      match get_str t with
      | Some (k, t1) =>
          match get_value t1 with
          | Some (v, t2) =>
              match get_n_items n' t2 with
              | Some (l, rest) => Some ((k, v) :: l, rest)
              | None => None
              end
          | None => None
          end
      | None => None
      end
  end.

Definition get_items (t : string) : option (dict * string) :=
  match get_ones t with
  | Some (n, t') => get_n_items n t'
  | None => None
  end.

(** What JSON can carry: a [datetime] it cannot. *)
Definition json_serializable (v : value) : bool :=
  match v with
  | VDatetime _ => false
  | _ => true
  end.

(** The encoder knows the three HMAC algorithms, turns the time claims
    into seconds and needs every value to be one JSON can carry. *)
Definition ref_encode (claims : dict) (key alg : string) : Result string :=
  let claims := numeric_dates claims in
  if negb (existsb (String.eqb alg) ["HS256"; "HS384"; "HS512"])
  then raise (OtherException "JWSError")
  else if negb (forallb (λ kv, json_serializable kv.2) claims)
  then raise TypeError
  else ret (put_str key (put_str alg (put_items claims EmptyString))).

Definition ref_decode (token key : string) (algorithms : list string) (now : Z)
    : Result dict :=
  match get_str token with
  | Some (k, t1) =>
      match get_str t1 with
      | Some (alg, t2) =>
          match get_items t2 with
          | Some (payload, EmptyString) =>
              if negb (existsb (String.eqb alg) algorithms)
              then raise (JWTError "The specified alg value is not allowed")
              else if negb (String.eqb k key)
              then raise (JWTError "Signature verification failed.")
              else
                _ <- validate_claims payload now ;;
                ret payload
          | _ => raise (JWTError "Not enough segments")
          end
      | None => raise (JWTError "Not enough segments")
      end
  | None => raise (JWTError "Not enough segments")
  end.

#[export] Instance ref_jose : Jose :=
  {| jwt_encode := ref_encode; jwt_decode := ref_decode |}.

End Reference.

(** ** Notions the properties are stated with *)

Module Notions.
Import Py Lib Permissions.

(** A role name is unrecognized when no member of [Role] has it as value. *)
Definition unrecognized (role_str : string) : Prop :=
  ∀ r : Role, Role_value r ≠ role_str.

(** The permission set of a role: [get_role_permissions] read as a set. *)
Definition role_permission_set (r : Role) : gset Permission :=
  list_to_set (get_role_permissions r).

(** The roles that the names of a list resolve to, in order. *)
Fixpoint resolved_roles (user_roles : list string) : list Role :=
  match user_roles with
  | [] => []
  | role_str :: rest =>
      match Role_call role_str with
      | inr r => r :: resolved_roles rest
      | inl _ => resolved_roles rest
      end
  end.

(** The order of the role chain, each role with the roles at or above it:
    [guest < user < manager < admin < super_admin], and [developer] below
    [manager]. *)
Definition role_above (r : Role) : list Role :=
  match r with
  | GUEST => [GUEST; USER; MANAGER; ADMIN; SUPER_ADMIN]
  | USER => [USER; MANAGER; ADMIN; SUPER_ADMIN]
  | DEVELOPER => [DEVELOPER; MANAGER; ADMIN; SUPER_ADMIN]
  | MANAGER => [MANAGER; ADMIN; SUPER_ADMIN]
  | ADMIN => [ADMIN; SUPER_ADMIN]
  | SUPER_ADMIN => [SUPER_ADMIN]
  end.

Definition role_below (r1 r2 : Role) : bool :=
  list_contains r2 (role_above r1).

(** The claims of the caller pass the checks the decoder makes on [nbf],
    [aud], [sub], [jti] and [at_hash] at the instant [now]: these are the
    registered claims other than the [exp] and [iat] the issuing functions
    set themselves. *)
Definition registered_claims_pass `{builtins : Builtins} (data : dict) (now : Z) : Prop :=
  validate_nbf (numeric_dates data) now = inr tt
  ∧ validate_aud data = inr tt
  ∧ validate_sub data = inr tt
  ∧ validate_jti data = inr tt
  ∧ validate_at_hash data = inr tt.

(** The checks the decoder makes on a token issued from [data] with the
    expiry [expire]: those of the caller's claims, and the one of [exp]. *)
Definition issued_checks `{builtins : Builtins} (data : dict) (expire now : Z) : Result unit :=
  _ <- validate_nbf (numeric_dates data) now ;;
  _ <- (if (timegm expire <? timegm now)%Z
        then raise (JWTError "Signature has expired.")
        else ret tt) ;;
  _ <- validate_aud data ;;
  _ <- validate_sub data ;;
  _ <- validate_jti data ;;
  validate_at_hash data.

End Notions.

(** ** Inputs the functions are run on *)

Module Examples.
Import Py Lib Config Jwt Crm Reference.

Definition example_settings : Settings :=
  default_settings "0123456789abcdef0123456789abcdef".

(** The token of a call that has returned one. *)
Definition token_of (r : Result string) : string :=
  match r with
  | inr token => token
  | inl _ => ""
  end.

(** Issued at second 1000 with a lifetime of one second: [exp] is 1001. *)
Definition example_access_token : Result string :=
  create_access_token example_settings [("sub", VStr "42")]
    (Some 1000000%Z) 1000000000 1000000000.

(** Issued at second 1000 with the default lifetime of thirty days. *)
Definition example_refresh_token : Result string :=
  create_refresh_token example_settings [("sub", VStr "42")]
    None 1000000000 1000000000.



Definition example_companies : gmap N Company :=
  {[ 7%N := {| id := 7; tenant_id := 1; name := "Acme";
               parent_company_id := None; version := 1 |} ]}.

End Examples.

(** ** core/exceptions/handlers.py *)

Module Handlers.
Import Py Errors.

(** What an attribute of an exception object, or an entry of a response
    body, can hold. *)
Inductive attr :=
| AStr (s : string)
| AInt (z : Z)
| ADict (d : gmap string value)
| ATuple (l : list string)
| ANone.

(** [getattr(exc, name)] on an instance of [NexusHubException] or of one of
    its subclasses in [errors.py]: the three attributes [__init__] sets and
    the [args] of [Exception]; no class of that file defines another data
    attribute, so any other name is an [AttributeError]. *)
Definition exc_getattr (exc : NexusHubException) (name : string) : Result attr :=
  if String.eqb name "message" then ret (AStr (message exc))
  else if String.eqb name "status_code" then ret (AInt (status_code exc))
  else if String.eqb name "details" then ret (ADict (details exc))
  else if String.eqb name "args" then ret (ATuple [message exc])
  else raise (OtherException "AttributeError").

Record JSONResponse := {
  response_status : Z;
  response_content : gmap string attr
}.

(** The arguments of [JSONResponse(...)] are evaluated in order. *)
Definition nexushub_exception_handler (exc : NexusHubException) : Result JSONResponse :=
  status <- exc_getattr exc "status_code" ;;
  error <- exc_getattr exc "error_code" ;;
  msg <- exc_getattr exc "message" ;;
  detail <- exc_getattr exc "detail" ;;
  ret {| response_status := match status with AInt z => z | _ => 0%Z end;
         response_content :=
           {[ "error" := error; "message" := msg; "detail" := detail ]} |}.

End Handlers.

(** ** domains/crm/service.py: contacts and deals *)

Module CrmEntities.
Import Py Errors.

Record Contact := {
  contact_id : N;
  contact_tenant_id : N;
  contact_email : option string;
  contact_company_id : option N
}.

Record Deal := {
  deal_id : N;
  deal_tenant_id : N;
  deal_company_id : N;
  deal_stage : string
}.

(** [ContactService.get_contact], the table keyed by its primary key. *)
Definition get_contact (contacts : gmap N Contact)
    (contact_id tenant_id : N) : Result Contact :=
  contact <- ret (contacts !! contact_id) ;;
  match contact with
  | None => raise (NotFoundError "Contact not found" None)
  | Some c =>
      if bool_decide (contact_tenant_id c ≠ tenant_id)
      then raise (NotFoundError "Contact not found" None)
      else ret c
  end.

(** [DealService.get_deal]. *)
Definition get_deal (deals : gmap N Deal) (deal_id tenant_id : N) : Result Deal :=
  deal <- ret (deals !! deal_id) ;;
  match deal with
  | None => raise (NotFoundError "Deal not found" None)
  | Some d =>
      if bool_decide (deal_tenant_id d ≠ tenant_id)
      then raise (NotFoundError "Deal not found" None)
      else ret d
  end.

End CrmEntities.

(** ** domains/identity: models.py, repository.py, service.py *)

Module Identity.
Import Py Lib Errors Config Jwt Password.

(** A row of [users], with the columns the service reads or writes. *)
Record User := {
  id : N;
  email : string;
  username : string;
  password_hash : string;
  is_active : bool;
  is_superuser : bool;
  roles : list string;
  tenant_id : option N;
  last_login_at : option Z
}.

(** The property [User.is_admin]. *)
Definition is_admin (self : User) : bool :=
  is_superuser self
  || Permissions.list_contains "admin" (roles self)
  || Permissions.list_contains "super_admin" (roles self).

(** [str(uuid)]: the 32 hexadecimal digits of the 128-bit number, in groups
    of 8, 4, 4, 4 and 12. *)
Definition hex_digit (n : N) : ascii :=
  match n with
  | 0 => "0" | 1 => "1" | 2 => "2" | 3 => "3" | 4 => "4" | 5 => "5"
  | 6 => "6" | 7 => "7" | 8 => "8" | 9 => "9" | 10 => "a" | 11 => "b"
  | 12 => "c" | 13 => "d" | 14 => "e" | _ => "f"
  end%N%char.

Fixpoint hex_digits (k : nat) (u : N) (acc : string) : string :=
  match k with
  | O => acc
  | S k' => hex_digits k' (u `div` 16)%N (String (hex_digit (u `mod` 16)%N) acc)
  end.

Definition uuid_str (u : N) : string :=
  let h := hex_digits 32 u EmptyString in
  String.substring 0 8 h +:+ "-" +:+ String.substring 8 4 h +:+ "-"
  +:+ String.substring 12 4 h +:+ "-" +:+ String.substring 16 4 h +:+ "-"
  +:+ String.substring 20 12 h.

(** [schemas.py]: [UserRead], with the fields that come from the columns
    above. *)
Record UserRead := {
  read_id : Z;
  read_email : string;
  read_username : string;
  read_is_active : bool;
  read_is_superuser : bool;
  read_roles : list string;
  read_tenant_id : option Z;
  read_last_login_at : option Z
}.

(** What [model_validate] finds in an attribute of the user that a field
    of [UserRead] is read from. *)
Inductive attribute :=
| FieldInt (z : Z)
| FieldUuid (u : N)
| FieldNone.

(** Pydantic's validation of a field annotated [int]: an [int] is valid;
    a [UUID] is not a number and has no conversion to one; [None] is not
    valid either. *)
Definition validate_int (a : attribute) : option Z :=
  match a with
  | FieldInt z => Some z
  | FieldUuid _ | FieldNone => None
  end.

(** A field annotated [Optional[int]]: [None] is valid. *)
Definition validate_optional_int (a : attribute) : option (option Z) :=
  match a with
  | FieldNone => Some None
  | _ => option_map Some (validate_int a)
  end.

(** The attributes [id] and [tenant_id] of a [User], which [models.py]
    declares as [UUID] and [Optional[UUID]]. *)
Definition id_attribute (u : User) : attribute := FieldUuid (id u).

Definition tenant_id_attribute (u : User) : attribute :=
  match tenant_id u with
  | Some t => FieldUuid t
  | None => FieldNone
  end.

(** [UserRead.model_validate(user)], reading the attributes of the user:
    one field in error makes it raise pydantic's [ValidationError] (which
    is not the [ValidationError] of [errors.py]). *)
Definition model_validate (u : User) : Result UserRead :=
  match validate_int (id_attribute u),
        validate_optional_int (tenant_id_attribute u) with
  | Some i, Some tenant =>
      ret {| read_id := i; read_email := email u;
             read_username := username u; read_is_active := is_active u;
             read_is_superuser := is_superuser u; read_roles := roles u;
             read_tenant_id := tenant;
             read_last_login_at := last_login_at u |}
  | _, _ => raise (OtherException "pydantic.ValidationError")
  end.

Record LoginRequest := {
  login_username : string;
  login_password : string
}.

Record TokenResponse := {
  access_token : string;
  refresh_token : string;
  token_type : string;
  user : UserRead
}.

(** The service runs against the [users] table, keyed by primary key: a
    call takes the table and gives back its outcome and the table as it
    left it. *)
Definition Db (A : Type) : Type := gmap N User → Result A * gmap N User.

Definition db_ret {A} (a : A) : Db A := λ t, (inr a, t).
Definition db_raise {A} (e : exn) : Db A := λ t, (inl e, t).
Definition db_lift {A} (r : Result A) : Db A := λ t, (r, t).
Definition db_bind {A B} (m : Db A) (k : A → Db B) : Db B :=
  λ t, match m t with
       | (inl e, t') => (inl e, t')
       | (inr a, t') => k a t'
       end.

(** [result.scalar_one_or_none()] on the rows a query selects. *)
Definition scalar_one_or_none {A} (rows : list A) : Result (option A) :=
  match rows with
  | [] => ret None
  | [row] => ret (Some row)
  | _ => raise (OtherException "MultipleResultsFound")
  end.

(** [BaseRepository.get]. *)
Definition repository_get (id : N) : Db (option User) :=
  λ t, (inr (t !! id), t).

(** The [WHERE] clause of [get_by_email_or_username]. *)
Definition login_matches (identifier : string) (u : User) : Prop :=
  email u = identifier ∨ username u = identifier.

#[global] Instance login_matches_dec identifier u : Decision (login_matches identifier u).
Proof. unfold login_matches. apply _. Defined.

(** [UserRepository.get_by_email_or_username]. *)
Definition get_by_email_or_username (identifier : string) : Db (option User) :=
  λ t,
    let rows := filter (login_matches identifier) (map_to_list t).*2 in
    (scalar_one_or_none rows, t).

(** [user.last_login_at = now]. *)
Definition set_last_login_at (u : User) (now : Z) : User :=
  {| id := id u; email := email u; username := username u;
     password_hash := password_hash u; is_active := is_active u;
     is_superuser := is_superuser u; roles := roles u;
     tenant_id := tenant_id u; last_login_at := Some now |}.

(** [UserRepository.update_last_login], [now] being [datetime.utcnow()]. *)
Definition update_last_login (user_id : N) (now : Z) : Db unit :=
  db_bind (repository_get user_id) (λ user,
    match user with
    | Some u => λ t, (inr tt, <[user_id := set_last_login_at u now]> t)
    | None => db_ret tt
    end).

(** The readings of the clock during one login, in the order taken. *)
Record LoginClock := {
  at_last_login : Z;
  at_access_exp : Z;
  at_access_iat : Z;
  at_refresh_exp : Z;
  at_refresh_iat : Z
}.

Section WithLibraries.
Context `{ph : PasswordHasher} `{jose : Jose} (settings : Settings).

(** [IdentityService.authenticate]. The user object is the session's one
    object for its row, so [model_validate] sees the login time just
    written. *)
Definition authenticate (credentials : LoginRequest) (clock : LoginClock)
    : Db TokenResponse :=
  db_bind (get_by_email_or_username (login_username credentials)) (λ user,
  match user with
  | None => db_raise (AuthenticationError "Invalid credentials" None)
  | Some user =>
    db_bind (db_lift (verify_password (login_password credentials)
                        (password_hash user))) (λ verified,
    if negb verified
    then db_raise (AuthenticationError "Invalid credentials" None)
    else if negb (is_active user)
    then db_raise (AuthenticationError "User account is disabled" None)
    else
      db_bind (update_last_login (id user) (at_last_login clock)) (λ _,
      let token_data : dict :=
        [("sub", VStr (uuid_str (id user)));
         ("email", VStr (email user));
         ("username", VStr (username user));
         ("roles", VStrList (roles user))] in
      db_bind (db_lift (create_access_token settings token_data None
                          (at_access_exp clock) (at_access_iat clock)))
        (λ access_token,
      db_bind (db_lift (create_refresh_token settings
                          [("sub", VStr (uuid_str (id user)))] None
                          (at_refresh_exp clock) (at_refresh_iat clock)))
        (λ refresh_token,
      db_bind (λ t, (match t !! id user with
                     | Some u => model_validate u
                     | None => model_validate user
                     end, t)) (λ user_read,
      db_ret {| access_token := access_token;
                refresh_token := refresh_token;
                token_type := "bearer";
                user := user_read |})))))
  end).

End WithLibraries.
End Identity.

(** ** More inputs the functions are run on *)

Module MoreExamples.
Import Py Lib Config Identity CrmEntities Reference.

Definition example_user : User :=
  {| id := 7; email := "ada@example.org"; username := "ada";
     password_hash := "$current$Sup3rSecret!"; is_active := true;
     is_superuser := false; roles := ["manager"; "intern"];
     tenant_id := Some 1%N; last_login_at := None |}.

Definition example_disabled_user : User :=
  {| id := 8; email := "bob@example.org"; username := "bob";
     password_hash := "$current$hunter2"; is_active := false;
     is_superuser := true; roles := [];
     tenant_id := Some 1%N; last_login_at := None |}.

(** A user whose username is another user's email. *)
Definition example_shadow_user : User :=
  {| id := 9; email := "eve@example.org"; username := "ada@example.org";
     password_hash := "$current$x"; is_active := true;
     is_superuser := false; roles := [];
     tenant_id := Some 2%N; last_login_at := None |}.

Definition example_users : gmap N User :=
  {[ 7%N := example_user; 8%N := example_disabled_user ]}.

Definition example_ambiguous_users : gmap N User :=
  {[ 7%N := example_user; 9%N := example_shadow_user ]}.

Definition example_login_clock : LoginClock :=
  {| at_last_login := 1000000000; at_access_exp := 1000000000;
     at_access_iat := 1000000000; at_refresh_exp := 1000000000;
     at_refresh_iat := 1000000000 |}.

Definition example_contacts : gmap N Contact :=
  {[ 3%N := {| contact_id := 3; contact_tenant_id := 1;
               contact_email := Some "ada@example.org";
               contact_company_id := Some 7%N |} ]}.

Definition example_deals : gmap N Deal :=
  {[ 5%N := {| deal_id := 5; deal_tenant_id := 1; deal_company_id := 7;
               deal_stage := "qualified" |} ]}.

End MoreExamples.

(** * Properties *)

(** ** The permission catalog *)

Section PermissionCatalog.
Import Py Permissions Notions.

Lemma Role_call_value (r : Role) : Role_call (Role_value r) = inr r.
Proof. by destruct r. Qed.

Lemma Role_call_inr (role_str : string) (r : Role) :
  Role_call role_str = inr r ↔ Role_value r = role_str.
Proof.
  split.
  - unfold Role_call.
    destruct (List.find _ _) as [r'|] eqn:Hfind; [|discriminate].
    intros [= ->]. apply find_some in Hfind as [_ Heq].
    by apply String.eqb_eq in Heq.
  - intros <-. apply Role_call_value.
Qed.

Lemma Role_call_cases (role_str : string) :
  (∃ r, Role_call role_str = inr r ∧ Role_value r = role_str)
  ∨ (Role_call role_str = inl ValueError ∧ unrecognized role_str).
Proof.
  destruct (Role_call role_str) as [e|r] eqn:Hcall.
  - right. unfold Role_call in Hcall.
    destruct (List.find _ _) eqn:Hfind; [discriminate|].
    injection Hcall as <-. split; [done|].
    intros r Hr. apply Role_call_inr in Hr.
    unfold Role_call in Hr. by rewrite Hfind in Hr.
  - left. exists r. split; [done|]. by apply Role_call_inr.
Qed.

Lemma Role_call_unrecognized (role_str : string) :
  unrecognized role_str → Role_call role_str = inl ValueError.
Proof.
  intros Hun. destruct (Role_call_cases role_str) as [(r & _ & Hr)|[H _]]; [|done].
  by destruct (Hun r).
Qed.

Lemma list_contains_elem_of {A} `{EqDecision A} (x : A) (l : list A) :
  list_contains x l = true ↔ x ∈ l.
Proof.
  unfold list_contains. rewrite existsb_exists. split.
  - intros (y & Hy & Heq). apply bool_decide_eq_true in Heq as ->.
    by apply list_elem_of_In.
  - intros Hx. exists x. split; [by apply list_elem_of_In|].
    by apply bool_decide_eq_true.
Qed.

Lemma resolved_roles_unrecognized (user_roles : list string) :
  Forall unrecognized user_roles → resolved_roles user_roles = [].
Proof.
  induction 1 as [|s l Hs _ IH]; [done|].
  simpl. by rewrite (Role_call_unrecognized s Hs).
Qed.

Lemma resolved_roles_app (l1 l2 : list string) :
  resolved_roles (l1 ++ l2) = resolved_roles l1 ++ resolved_roles l2.
Proof.
  induction l1 as [|s l1 IH]; [done|].
  simpl. destruct (Role_call s); by rewrite IH.
Qed.

Lemma elem_of_resolved_roles (user_roles : list string) (r : Role) :
  r ∈ resolved_roles user_roles ↔ Role_value r ∈ user_roles.
Proof.
  induction user_roles as [|s l IH]; simpl.
  - by rewrite !elem_of_nil.
  - destruct (Role_call_cases s) as [(r' & Hcall & Hval)|[Hcall Hun]];
      rewrite Hcall, !elem_of_cons, IH.
    + split; (intros [Heq|Hin]; [left|by right]).
      * by subst.
      * apply Role_call_inr in Heq. congruence.
    + split; [by right|]. intros [Heq|Hin]; [|done]. by destruct (Hun r).
Qed.

(** The accumulating loop returns the accumulator joined with the sets of
    the resolved roles; it never raises. *)
Lemma get_user_permissions_loop_spec (user_roles : list string) (acc : gset Permission) :
  get_user_permissions_loop user_roles acc
  = inr (acc ∪ ⋃ (role_permission_set <$> resolved_roles user_roles)).
Proof.
  revert acc. induction user_roles as [|s l IH]; intros acc; simpl.
  - by rewrite (right_id_L ∅ (∪)).
  - destruct (Role_call s) as [e|r] eqn:Hcall; simpl.
    + destruct (Role_call_cases s) as [(r & Hr & _)|[He _]]; [congruence|].
      rewrite Hcall in He. injection He as ->. simpl. apply IH.
    + rewrite IH. fold (role_permission_set r). by rewrite (assoc_L (∪)).
Qed.

(** The scanning loop returns whether some resolved role lists the
    permission; it never raises. *)
Lemma has_permission_spec (user_roles : list string) (p : Permission) :
  has_permission user_roles p
  = inr (existsb (λ r, list_contains p (get_role_permissions r))
           (resolved_roles user_roles)).
Proof.
  induction user_roles as [|s l IH]; simpl; [done|].
  destruct (Role_call s) as [e|r] eqn:Hcall; simpl.
  - destruct (Role_call_cases s) as [(r & Hr & _)|[He _]]; [congruence|].
    rewrite Hcall in He. injection He as ->. simpl. apply IH.
  - destruct (list_contains p (get_role_permissions r)); simpl; [done|apply IH].
Qed.

(** C2: every member of the [Permission] enumeration is in the list that
    [ROLE_PERMISSIONS] gives [super_admin], and so that role's permission
    set is the full set. *)
Theorem super_admin_has_every_permission :
  ∀ p : Permission,
    p ∈ get_role_permissions SUPER_ADMIN
    ∧ p ∈ role_permission_set SUPER_ADMIN.
Proof.
  intros p. assert (Hin : p ∈ get_role_permissions SUPER_ADMIN).
  { change (get_role_permissions SUPER_ADMIN) with (enum Permission).
    apply elem_of_enum. }
  split; [done|]. unfold role_permission_set. by apply elem_of_list_to_set.
Qed.

Lemma get_user_permissions_resolved (user_roles : list string) :
  get_user_permissions user_roles
  = inr (⋃ (role_permission_set <$> resolved_roles user_roles)).
Proof.
  unfold get_user_permissions.
  by rewrite get_user_permissions_loop_spec, (left_id_L ∅ (∪)).
Qed.

Lemma elem_of_resolved_union (user_roles : list string) (p : Permission) :
  p ∈ ⋃ (role_permission_set <$> resolved_roles user_roles)
  ↔ ∃ r, Role_value r ∈ user_roles ∧ p ∈ get_role_permissions r.
Proof.
  rewrite elem_of_union_list. split.
  - intros (X & HX & Hp). apply list_elem_of_fmap in HX as (r & -> & Hr).
    exists r. split; [by apply elem_of_resolved_roles|].
    by apply elem_of_list_to_set in Hp.
  - intros (r & Hr & Hp). exists (role_permission_set r). split.
    + apply list_elem_of_fmap. exists r. split; [done|].
      by apply elem_of_resolved_roles.
    + by apply elem_of_list_to_set.
Qed.

(** C3: [get_user_permissions] never raises and returns the union of the
    permission sets of the roles its names resolve to; a permission is in
    the result exactly when a listed name is the value of a role granting
    it. With one recognized name among unrecognized ones the result is that
    role's set, and with unrecognized names only it is empty. *)
Theorem get_user_permissions_union :
  (∀ user_roles : list string,
     get_user_permissions user_roles
     = inr (⋃ (role_permission_set <$> resolved_roles user_roles))
     ∧ ∀ p, p ∈ ⋃ (role_permission_set <$> resolved_roles user_roles)
            ↔ ∃ r, Role_value r ∈ user_roles ∧ p ∈ get_role_permissions r)
  ∧ (∀ (before after : list string) (role_str : string) (r : Role),
       Forall unrecognized before → Forall unrecognized after →
       Role_value r = role_str →
       get_user_permissions (before ++ role_str :: after)
       = inr (role_permission_set r))
  ∧ (∀ user_roles : list string,
       Forall unrecognized user_roles →
       get_user_permissions user_roles = inr ∅).
Proof.
  split; [|split].
  - intros l. split; [apply get_user_permissions_resolved|].
    intros p. apply elem_of_resolved_union.
  - intros l1 l2 s r H1 H2 Hr. rewrite get_user_permissions_resolved.
    rewrite resolved_roles_app. simpl.
    apply Role_call_inr in Hr. rewrite Hr.
    rewrite !resolved_roles_unrecognized by done. simpl.
    by rewrite (right_id_L ∅ (∪)).
  - intros l Hl. rewrite get_user_permissions_resolved.
    by rewrite resolved_roles_unrecognized.
Qed.

Lemma unrecognized_dec (role_str : string) :
  List.forallb (λ r, negb (String.eqb (Role_value r) role_str)) Role_members = true →
  unrecognized role_str.
Proof.
  intros Hall r Hr. rewrite forallb_forall in Hall.
  specialize (Hall r). rewrite Hr, String.eqb_refl in Hall.
  assert (In r Role_members) by (destruct r; simpl; tauto).
  by specialize (Hall ltac:(done)).
Qed.

Lemma get_user_permissions_union_witness :
  get_user_permissions ["owner"; "guest"; "root"]
  = inr (role_permission_set GUEST)
  ∧ get_user_permissions ["owner"; "root"] = inr ∅.
Proof.
  destruct get_user_permissions_union as (_ & Hone & Hnone). split.
  - apply (Hone ["owner"] ["root"] "guest" GUEST); [| |reflexivity];
      repeat constructor; by apply unrecognized_dec.
  - apply Hnone. repeat constructor; by apply unrecognized_dec.
Defined.

(** C8: [has_permission] never raises, and it returns [True] exactly when
    the permission is a member of the set [get_user_permissions] returns
    for the same names; for unrecognized names only it returns [False]. *)
Theorem has_permission_iff_member :
  ∀ (user_roles : list string) (p : Permission),
    (∃ b S, has_permission user_roles p = inr b
            ∧ get_user_permissions user_roles = inr S
            ∧ (b = true ↔ p ∈ S))
    ∧ (Forall unrecognized user_roles → has_permission user_roles p = inr false).
Proof.
  intros l p. split.
  - eexists _, _. split; [apply has_permission_spec|].
    split; [apply get_user_permissions_resolved|].
    rewrite elem_of_resolved_union, existsb_exists. split.
    + intros (r & Hr & Hp). exists r. split.
      * by apply elem_of_resolved_roles, list_elem_of_In.
      * by apply list_contains_elem_of.
    + intros (r & Hr & Hp). exists r. split.
      * by apply list_elem_of_In, elem_of_resolved_roles.
      * by apply list_contains_elem_of.
  - intros Hl. rewrite has_permission_spec.
    by rewrite resolved_roles_unrecognized.
Qed.

Lemma has_permission_iff_member_witness :
  has_permission ["owner"; "root"] CONTACT_READ = inr false.
Proof.
  apply has_permission_iff_member.
  repeat constructor; by apply unrecognized_dec.
Defined.

(** C9: the table is an inclusion chain, guest within user within manager
    within admin within super_admin, and developer within manager; so a
    role lower in the chain never holds a permission a higher one lacks. *)
Theorem role_permissions_chain :
  role_permission_set GUEST ⊆ role_permission_set USER
  ∧ role_permission_set USER ⊆ role_permission_set MANAGER
  ∧ role_permission_set MANAGER ⊆ role_permission_set ADMIN
  ∧ role_permission_set ADMIN ⊆ role_permission_set SUPER_ADMIN
  ∧ role_permission_set DEVELOPER ⊆ role_permission_set MANAGER
  ∧ ∀ (r1 r2 : Role) (p : Permission),
      role_below r1 r2 = true →
      p ∈ get_role_permissions r1 → p ∈ get_role_permissions r2.
Proof.
  assert (Hsub : ∀ r1 r2,
    forallb (λ p, list_contains p (get_role_permissions r2))
      (get_role_permissions r1) = true →
    ∀ p, p ∈ get_role_permissions r1 → p ∈ get_role_permissions r2).
  { intros r1 r2 Hall p Hp. rewrite forallb_forall in Hall.
    apply list_contains_elem_of, Hall. by apply list_elem_of_In. }
  assert (Hset : ∀ r1 r2,
    forallb (λ p, list_contains p (get_role_permissions r2))
      (get_role_permissions r1) = true →
    role_permission_set r1 ⊆ role_permission_set r2).
  { intros r1 r2 Hall p. unfold role_permission_set.
    rewrite !elem_of_list_to_set. by apply Hsub. }
  repeat split; try (apply Hset; reflexivity).
  intros r1 r2 p Hbelow. apply Hsub.
  destruct r1, r2; try reflexivity; discriminate Hbelow.
Qed.

Lemma role_permissions_chain_witness :
  TASK_READ ∈ get_role_permissions ADMIN.
Proof.
  destruct role_permissions_chain as (_ & _ & _ & _ & _ & Hchain).
  apply (Hchain GUEST ADMIN TASK_READ); [reflexivity|].
  by apply list_contains_elem_of.
Defined.

End PermissionCatalog.

(** ** Dicts *)

Section Dicts.
Import Py Lib.

Lemma dict_get_set_eq (d : dict) (k : string) (v : value) :
  dict_get (dict_set d k v) k = Some v.
Proof.
  induction d as [|[k' v'] d IH]; simpl.
  - by rewrite String.eqb_refl.
  - destruct (String.eqb_spec k' k) as [->|Hne]; simpl.
    + by rewrite String.eqb_refl.
    + by destruct (String.eqb_spec k' k).
Qed.

Lemma dict_get_set_ne (d : dict) (k k' : string) (v : value) :
  k ≠ k' → dict_get (dict_set d k v) k' = dict_get d k'.
Proof.
  intros Hne. induction d as [|[k0 v0] d IH]; simpl.
  - by destruct (String.eqb_spec k k').
  - destruct (String.eqb_spec k0 k) as [->|Hk0]; simpl.
    + by destruct (String.eqb_spec k k').
    + by rewrite IH.
Qed.

Lemma dict_set_keys (d : dict) (k k' : string) (v : value) :
  k' ∈ (dict_set d k v).*1 → k' = k ∨ k' ∈ d.*1.
Proof.
  induction d as [|[k0 v0] d IH]; simpl.
  - intros Hin. apply elem_of_cons in Hin as [->|Hin]; [by left|].
    by apply elem_of_nil in Hin.
  - destruct (String.eqb_spec k0 k) as [->|Hne]; simpl; [by right|].
    intros Hin. apply elem_of_cons in Hin as [->|Hin].
    + right. by left.
    + destruct (IH Hin) as [->|Hd]; [by left|]. right. by right.
Qed.

Lemma is_dict_set (d : dict) (k : string) (v : value) :
  is_dict d → is_dict (dict_set d k v).
Proof.
  unfold is_dict. induction d as [|[k0 v0] d IH]; simpl.
  - intros _. apply NoDup_singleton.
  - intros Hnodup. apply NoDup_cons in Hnodup as [Hfresh Hnodup].
    destruct (String.eqb_spec k0 k) as [->|Hne]; simpl.
    + by apply NoDup_cons.
    + apply NoDup_cons. split; [|by apply IH].
      intros Hin. by destruct (dict_set_keys _ _ _ _ Hin).
Qed.

Lemma numeric_dates_keys (d : dict) : (numeric_dates d).*1 = d.*1.
Proof.
  unfold numeric_dates. induction d as [|[k v] d IH]; [done|].
  change ((let kv := (k, v) in
           if is_time_claim kv.1 then (kv.1, numeric_date kv.2) else kv).1
          :: (map (λ kv : string * value,
                     if is_time_claim kv.1 then (kv.1, numeric_date kv.2) else kv)
                d).*1
          = k :: d.*1).
  rewrite IH. simpl. by destruct (is_time_claim k).
Qed.

Lemma is_dict_numeric_dates (d : dict) : is_dict d → is_dict (numeric_dates d).
Proof. unfold is_dict. by rewrite numeric_dates_keys. Qed.

Lemma dict_get_numeric_dates (d : dict) (k : string) :
  dict_get (numeric_dates d) k
  = if is_time_claim k then numeric_date <$> dict_get d k else dict_get d k.
Proof.
  unfold numeric_dates. induction d as [|[k0 v0] d IH]; simpl.
  - by destruct (is_time_claim k).
  - destruct (is_time_claim k0) eqn:Hk0; simpl;
      destruct (String.eqb_spec k0 k) as [->|Hne]; try done;
      by rewrite Hk0.
Qed.

End Dicts.

(** ** The stand-in codec reads back what it writes *)

Section Codec.
Import Py Lib Reference.

Lemma get_ones_ones (n : nat) (rest : string) :
  get_ones (ones n rest) = Some (n, rest).
Proof. induction n as [|n IH]; simpl; [done|]. by rewrite IH. Qed.

Lemma take_chars_app (s rest : string) :
  take_chars (String.length s) (s +:+ rest) = Some (s, rest).
Proof. induction s as [|c s IH]; simpl; [done|]. by rewrite IH. Qed.

Lemma get_put_str (s rest : string) : get_str (put_str s rest) = Some (s, rest).
Proof.
  unfold get_str, put_str. rewrite get_ones_ones. apply take_chars_app.
Qed.

Lemma get_put_pos (p : positive) : get_pos (put_pos p) = p.
Proof. induction p as [p IH|p IH|]; simpl; by rewrite ?IH. Qed.

Lemma get_put_Z (z : Z) : get_Z (put_Z z) = Some z.
Proof. destruct z; simpl; by rewrite ?get_put_pos. Qed.

Lemma get_put_strs (l : list string) (rest : string) :
  get_strs (put_strs l rest) = Some (l, rest).
Proof.
  unfold get_strs, put_strs. rewrite get_ones_ones.
  induction l as [|s l IH]; simpl; [done|].
  by rewrite get_put_str, IH.
Qed.

Lemma get_put_value (v : value) (rest : string) :
  get_value (put_value v rest) = Some (v, rest).
Proof.
  destruct v as [|[]|z|s|l|us]; simpl;
    rewrite ?get_put_str, ?get_put_Z, ?get_put_strs; done.
Qed.

Lemma get_put_items (l : dict) (rest : string) :
  get_items (put_items l rest) = Some (l, rest).
Proof.
  unfold get_items, put_items. rewrite get_ones_ones.
  induction l as [|[k v] l IH]; simpl; [done|].
  unfold put_item at 1. simpl.
  by rewrite get_put_str, get_put_value, IH.
Qed.

Lemma ref_jose_roundtrip (key alg : string) :
  @jose_roundtrip ref_builtins ref_jose key alg.
Proof.
  intros claims token now _ Henc. simpl in *.
  unfold ref_encode in Henc.
  destruct (negb (existsb _ _)); [discriminate|].
  destruct (negb (forallb _ _)); [discriminate|].
  injection Henc as <-.
  unfold ref_decode. rewrite !get_put_str, get_put_items. simpl.
  by rewrite !String.eqb_refl.
Qed.

End Codec.

(** ** Tokens *)

Section Tokens.
Import Py Lib Errors Config Jwt Dependencies Notions.
Context `{builtins : Builtins} `{jose : Jose} (settings : Settings).

Lemma decode_token_inr (token : string) (now : Z) (payload : dict) :
  jwt_decode token (SECRET_KEY settings) [ALGORITHM settings] now = inr payload →
  decode_token settings token now = inr payload.
Proof. intros Hdec. unfold decode_token. by rewrite Hdec. Qed.

Lemma decode_token_JWTError (token : string) (now : Z) (msg : string) :
  jwt_decode token (SECRET_KEY settings) [ALGORITHM settings] now = inl (JWTError msg) →
  decode_token settings token now
  = inl (AuthenticationError "Invalid or expired token"
           (Some {[ "error" := VStr msg ]})).
Proof. intros Hdec. unfold decode_token. by rewrite Hdec. Qed.

Lemma verify_token_type_mismatch (payload : dict) (expected : string) :
  get payload "type" ≠ VStr expected →
  ∃ e, verify_token_type payload expected = inl e
       ∧ is_AuthenticationError e = true.
Proof.
  intros Hne. unfold verify_token_type.
  rewrite bool_decide_eq_true_2 by done. by eexists.
Qed.

Lemma dict_get_stamp (data : dict) (expire iat : Z) (ty k : string) :
  dict_get (stamp data expire iat ty) k
  = if String.eqb k "exp" then Some (VDatetime expire)
    else if String.eqb k "iat" then Some (VDatetime iat)
    else if String.eqb k "type" then Some (VStr ty)
    else dict_get data k.
Proof.
  unfold stamp, dict_update. simpl.
  destruct (String.eqb_spec k "type") as [->|Htype].
  { simpl. apply dict_get_set_eq. }
  rewrite dict_get_set_ne by done.
  destruct (String.eqb_spec k "iat") as [->|Hiat].
  { simpl. apply dict_get_set_eq. }
  rewrite dict_get_set_ne by done.
  destruct (String.eqb_spec k "exp") as [->|Hexp].
  { apply dict_get_set_eq. }
  by rewrite dict_get_set_ne.
Qed.

Lemma is_dict_stamp (data : dict) (expire iat : Z) (ty : string) :
  is_dict data → is_dict (stamp data expire iat ty).
Proof.
  intros Hdict. unfold stamp, dict_update. simpl.
  by do 3 apply is_dict_set.
Qed.

(** The payload of a token issued from [data]. *)
Lemma dict_get_payload (data : dict) (expire iat : Z) (ty k : string) :
  dict_get (numeric_dates (stamp data expire iat ty)) k
  = if String.eqb k "exp" then Some (VInt (timegm expire))
    else if String.eqb k "iat" then Some (VInt (timegm iat))
    else if String.eqb k "type" then Some (VStr ty)
    else dict_get (numeric_dates data) k.
Proof.
  rewrite !dict_get_numeric_dates, dict_get_stamp. unfold is_time_claim.
  destruct (String.eqb_spec k "exp") as [->|Hexp]; [done|].
  destruct (String.eqb_spec k "iat") as [->|Hiat]; [done|].
  destruct (String.eqb_spec k "type") as [->|Htype]; [done|].
  done.
Qed.

Lemma dict_get_payload_other (data : dict) (expire iat : Z) (ty k : string) :
  is_time_claim k = false → k ≠ "type" →
  dict_get (numeric_dates (stamp data expire iat ty)) k = dict_get data k.
Proof.
  intros Htime Htype. rewrite dict_get_payload, dict_get_numeric_dates, Htime.
  unfold is_time_claim in Htime.
  destruct (String.eqb_spec k "exp"); [done|].
  destruct (String.eqb_spec k "iat"); [done|].
  by destruct (String.eqb_spec k "type").
Qed.

(** The checks the decoder makes on an issued token: [iat] passes, [exp]
    is the one comparison, and the others see the caller's claims. *)
Lemma validate_claims_stamped (data : dict) (expire iat : Z) (ty : string) (now : Z) :
  validate_claims (numeric_dates (stamp data expire iat ty)) now
  = issued_checks data expire now.
Proof.
  unfold issued_checks, validate_claims, validate_iat, validate_nbf, validate_exp,
    validate_aud, validate_sub, validate_jti, validate_at_hash.
  rewrite !dict_get_payload. simpl.
  rewrite !(dict_get_numeric_dates data). simpl. reflexivity.
Qed.

(** [validate_nbf] returns, raises a [JWTError] or, for an [nbf] that
    [int()] does not take, a [TypeError]. *)
Lemma validate_nbf_cases (claims : dict) (now : Z) :
  validate_nbf claims now = inr tt
  ∨ (∃ msg, validate_nbf claims now = inl (JWTError msg))
  ∨ validate_nbf claims now = inl TypeError.
Proof.
  unfold validate_nbf, int_claim.
  destruct (dict_get claims "nbf") as [v|]; [|by left].
  destruct v as [|b|z|s|l|us]; simpl; try (by right; right).
  - destruct (_ <? _)%Z; [right; left; by eexists|by left].
  - destruct (_ <? _)%Z; [right; left; by eexists|by left].
  - destruct (int_of_str s); simpl; [|right; left; by eexists].
    destruct (_ <? _)%Z; [right; left; by eexists|by left].
Qed.

Lemma access_expire_encode (data : dict) (expires_delta : option Z)
    (now now_iat expire : Z) (token : string) :
  access_expire settings expires_delta now = inr expire →
  create_access_token settings data expires_delta now now_iat = inr token →
  jwt_encode (stamp data expire now_iat "access")
    (SECRET_KEY settings) (ALGORITHM settings) = inr token.
Proof.
  intros Hexp. unfold create_access_token. rewrite Hexp. simpl.
  by destruct (jwt_encode _ _ _).
Qed.

Lemma refresh_expire_encode (data : dict) (expires_delta : option Z)
    (now now_iat expire : Z) (token : string) :
  refresh_expire settings expires_delta now = inr expire →
  create_refresh_token settings data expires_delta now now_iat = inr token →
  jwt_encode (stamp data expire now_iat "refresh")
    (SECRET_KEY settings) (ALGORITHM settings) = inr token.
Proof.
  intros Hexp. unfold create_refresh_token. rewrite Hexp. simpl.
  by destruct (jwt_encode _ _ _).
Qed.

(** What the decoder makes of an issued token. *)
Lemma jwt_decode_issued (data : dict) (expire iat : Z) (ty token : string) (now : Z) :
  jose_roundtrip (SECRET_KEY settings) (ALGORITHM settings) →
  is_dict data →
  jwt_encode (stamp data expire iat ty)
    (SECRET_KEY settings) (ALGORITHM settings) = inr token →
  jwt_decode token (SECRET_KEY settings) [ALGORITHM settings] now
  = (_ <- issued_checks data expire now ;;
     ret (numeric_dates (stamp data expire iat ty))).
Proof.
  intros Hlaw Hdict Henc.
  rewrite (Hlaw _ _ now (is_dict_stamp _ expire iat ty Hdict) Henc).
  by rewrite validate_claims_stamped.
Qed.

Lemma issued_checks_pass (data : dict) (expire now : Z) :
  (timegm now ≤ timegm expire)%Z →
  registered_claims_pass data now →
  issued_checks data expire now = inr tt.
Proof.
  intros Hle (Hnbf & Haud & Hsub & Hjti & Hat). unfold issued_checks.
  rewrite Hnbf, Haud, Hsub, Hjti, Hat. simpl.
  by destruct (Z.ltb_spec (timegm expire) (timegm now)); [lia|].
Qed.

Lemma decode_token_issued (data : dict) (expire iat : Z) (ty token : string) (now : Z) :
  jose_roundtrip (SECRET_KEY settings) (ALGORITHM settings) →
  is_dict data →
  jwt_encode (stamp data expire iat ty)
    (SECRET_KEY settings) (ALGORITHM settings) = inr token →
  (timegm now ≤ timegm expire)%Z →
  registered_claims_pass data now →
  decode_token settings token now
  = inr (numeric_dates (stamp data expire iat ty)).
Proof.
  intros Hlaw Hdict Henc Hle Hpass.
  apply decode_token_inr.
  rewrite (jwt_decode_issued _ _ _ _ _ _ Hlaw Hdict Henc).
  by rewrite issued_checks_pass.
Qed.

Lemma decode_token_issued_sub (data : dict) (expire iat : Z) (ty token : string)
    (now : Z) (sub : value) :
  jose_roundtrip (SECRET_KEY settings) (ALGORITHM settings) →
  is_dict data →
  jwt_encode (stamp data expire iat ty)
    (SECRET_KEY settings) (ALGORITHM settings) = inr token →
  (timegm now ≤ timegm expire)%Z →
  validate_nbf (numeric_dates data) now = inr tt →
  validate_aud data = inr tt →
  dict_get data "sub" = Some sub →
  (∀ s, sub ≠ VStr s) →
  decode_token settings token now
  = inl (AuthenticationError "Invalid or expired token"
           (Some {[ "error" := VStr "Subject must be a string." ]})).
Proof.
  intros Hlaw Hdict Henc Hle Hnbf Haud Hsub Hnostr.
  apply decode_token_JWTError.
  rewrite (jwt_decode_issued _ _ _ _ _ _ Hlaw Hdict Henc).
  unfold issued_checks. rewrite Hnbf, Haud. simpl.
  destruct (Z.ltb_spec (timegm expire) (timegm now)); [lia|]. simpl.
  unfold validate_sub. rewrite Hsub.
  destruct sub as [|b|z|s|l|us]; try done. by destruct (Hnostr s).
Qed.

Lemma timegm_mono (a b : Z) : (a ≤ b)%Z → (timegm a ≤ timegm b)%Z.
Proof. intros. unfold timegm. apply Z.div_le_mono; lia. Qed.

Lemma timegm_bounds (us : Z) :
  (us - 1000000 < timegm us * 1000000 ≤ us)%Z.
Proof.
  unfold timegm.
  pose proof (Z.mod_pos_bound us 1000000 ltac:(lia)).
  pose proof (Z.div_mod us 1000000 ltac:(lia)). lia.
Qed.


Lemma fromtimestamp_seconds_in_range (e : Z) :
  (-62135596800 ≤ e ≤ 253402300799)%Z →
  fromtimestamp_seconds e = inr (e * 1000000)%Z.
Proof.
  intros He. unfold fromtimestamp_seconds.
  destruct (Z.leb_spec (-62135596800) e); [|lia].
  by destruct (Z.leb_spec e 253402300799); [|lia].
Qed.

Lemma get_token_expiry_of_payload (token : string) (now : Z) (payload : dict) (e : Z) :
  decode_token settings token now = inr payload →
  get payload "exp" = VInt e → e ≠ 0%Z →
  (-62135596800 ≤ e ≤ 253402300799)%Z →
  get_token_expiry settings token now = inr (Some (e * 1000000)%Z).
Proof.
  intros Hdec Hexp Hnz Hrange. unfold get_token_expiry.
  rewrite Hdec. simpl. rewrite Hexp. simpl.
  destruct (Z.eqb_spec e 0); [done|]. simpl.
  by rewrite fromtimestamp_seconds_in_range.
Qed.



End Tokens.

(** *** The token functions on the stand-in codec *)

Section TokenExamples.
Import Py Lib Errors Config Jwt Dependencies Notions Reference Examples.







End TokenExamples.

(** ** Passwords *)

Section Passwords.
Import Py Lib Password.
Context `{ph : PasswordHasher}.

(** C6, the code against its contract: the [except] clause of
    [verify_password] names the hasher's three exceptions, so any other
    exception the hasher raises while verifying is raised to the caller,
    where the contract promises [False]. The hasher raises such an
    exception, a [UnicodeEncodeError], for a stored hash that holds a
    character outside ASCII. *)
Theorem verify_password_raises_other_exceptions
    (plain_password hashed_password name : string) :
  ph_verify hashed_password plain_password = inl (OtherException name) →
  verify_password plain_password hashed_password = inl (OtherException name).
Proof. intros Hverify. unfold verify_password. by rewrite Hverify. Qed.

(** C10: [needs_rehash] never raises: it returns what the hasher's check
    returns, and [True] whenever that check raises, whatever it raises. *)
Theorem needs_rehash_total (hashed_password : string) :
  needs_rehash hashed_password
  = inr (match ph_check_needs_rehash hashed_password with
         | inl _ => true
         | inr b => b
         end).
Proof.
  unfold needs_rehash.
  by destruct (ph_check_needs_rehash hashed_password).
Qed.

End Passwords.

Section PasswordExamples.
Import Py Lib Password Reference.

Lemma verify_password_raises_other_exceptions_witness :
  verify_password "hunter2" "$argon2id$v=19$m=65536,t=3,p=4$c2FsdHNhbHQ$hashé"
  = inl (OtherException "UnicodeEncodeError").
Proof.
  apply (verify_password_raises_other_exceptions (ph := ref_hasher)
           "hunter2" "$argon2id$v=19$m=65536,t=3,p=4$c2FsdHNhbHQ$hashé"
           "UnicodeEncodeError").
  vm_compute. reflexivity.
Defined.

End PasswordExamples.

(** ** Tenant-scoped loading *)

Section Tenants.
Import Py Errors Crm Examples.

(** C1: [get_company] raises when no company has the id and when the
    company belongs to another tenant, and it raises one and the same
    [NotFoundError] in both cases: same class, message, status code and
    details. *)
Theorem get_company_not_found_uniform
    (companies : gmap N Company) (company_id tenant_id : N) :
  companies !! company_id = None
  ∨ (∃ c, companies !! company_id = Some c ∧ Crm.tenant_id c ≠ tenant_id) →
  get_company companies company_id tenant_id
  = inl (NotFoundError "Company not found" None)
  ∧ NotFoundError "Company not found" None
    = NexusHub {| exc_class := NotFoundError_;
                  message := "Company not found not found";
                  status_code := 404;
                  details := ∅ |}.
Proof.
  intros Hcase. split; [|done]. unfold get_company, repository_get. simpl.
  destruct Hcase as [->|(c & -> & Hne)]; [done|].
  by rewrite bool_decide_eq_true_2.
Qed.

Lemma get_company_not_found_uniform_witness :
  get_company example_companies 7 2
  = inl (NotFoundError "Company not found" None)
  ∧ get_company example_companies 8 2
    = inl (NotFoundError "Company not found" None).
Proof.
  split.
  - apply (get_company_not_found_uniform example_companies 7 2).
    right. eexists. split; [reflexivity|]. vm_compute. discriminate.
  - apply (get_company_not_found_uniform example_companies 8 2).
    left. reflexivity.
Defined.

End Tenants.

(** * Further properties *)

(** ** The permission catalog, continued *)

Section PermissionCatalogMore.
Import Py Permissions Notions Identity.

Lemma has_permission_true_iff (user_roles : list string) (p : Permission) :
  has_permission user_roles p = inr true
  ↔ ∃ r, Role_value r ∈ user_roles ∧ p ∈ get_role_permissions r.
Proof.
  rewrite has_permission_spec. split.
  - intros [= Hex]. apply existsb_exists in Hex as (r & Hr & Hp).
    exists r. split.
    + by apply elem_of_resolved_roles, list_elem_of_In.
    + by apply list_contains_elem_of.
  - intros (r & Hr & Hp). f_equal. apply existsb_exists. exists r. split.
    + by apply list_elem_of_In, elem_of_resolved_roles.
    + by apply list_contains_elem_of.
Qed.

Lemma has_permission_returns (user_roles : list string) (p : Permission) :
  has_permission user_roles p = inr true ∨ has_permission user_roles p = inr false.
Proof. rewrite has_permission_spec. destruct (existsb _ _); auto. Qed.

Lemma granted_dec (p : Permission) (r : Role) :
  p ∈ get_role_permissions r
  ↔ list_contains p (get_role_permissions r) = true.
Proof. by rewrite list_contains_elem_of. Qed.

(** X1: the roles of two lists put together grant what either list
    grants: [has_permission] on a concatenation is the disjunction of its
    answers on the parts, and [get_user_permissions] the union. *)
Theorem permissions_of_concatenation (l1 l2 : list string) (p : Permission) :
  ∃ b1 b2 S1 S2,
    has_permission l1 p = inr b1
    ∧ has_permission l2 p = inr b2
    ∧ has_permission (l1 ++ l2) p = inr (b1 || b2)
    ∧ get_user_permissions l1 = inr S1
    ∧ get_user_permissions l2 = inr S2
    ∧ get_user_permissions (l1 ++ l2) = inr (S1 ∪ S2).
Proof.
  eexists _, _, _, _.
  rewrite !has_permission_spec, !get_user_permissions_resolved.
  repeat split.
  - by rewrite resolved_roles_app, existsb_app.
  - by rewrite resolved_roles_app, fmap_app, union_list_app_L.
Qed.

(** X2: only the names present matter, not their order or how often they
    occur: two lists with the same members give the same permission set and
    the same answer for every permission. *)
Theorem permissions_depend_on_members_only (l1 l2 : list string) :
  (∀ s, s ∈ l1 ↔ s ∈ l2) →
  get_user_permissions l1 = get_user_permissions l2
  ∧ ∀ p, has_permission l1 p = has_permission l2 p.
Proof.
  intros Hsame. split.
  - rewrite !get_user_permissions_resolved. f_equal.
    apply set_eq. intros p. rewrite !elem_of_resolved_union.
    by setoid_rewrite Hsame.
  - intros p.
    destruct (has_permission_returns l1 p) as [H1|H1],
             (has_permission_returns l2 p) as [H2|H2];
      rewrite H1, H2; try done; exfalso.
    + apply has_permission_true_iff in H1 as (r & Hr & Hp).
      assert (Ht : has_permission l2 p = inr true).
      { apply has_permission_true_iff. exists r. by rewrite <- Hsame. }
      congruence.
    + apply has_permission_true_iff in H2 as (r & Hr & Hp).
      assert (Ht : has_permission l1 p = inr true).
      { apply has_permission_true_iff. exists r. by rewrite Hsame. }
      congruence.
Qed.

Lemma permissions_depend_on_members_only_witness :
  get_user_permissions ["user"; "guest"; "user"]
  = get_user_permissions ["guest"; "user"].
Proof.
  apply (permissions_depend_on_members_only
           ["user"; "guest"; "user"] ["guest"; "user"]).
  intros s. rewrite !elem_of_cons, !elem_of_nil. tauto.
Defined.

(** X3: four permissions are granted by no role but [super_admin]; a
    caller holds one of them exactly when ["super_admin"] is among the
    role names. *)
Theorem super_admin_only_permissions (user_roles : list string) (p : Permission) :
  p ∈ [USER_DELETE; AI_ADMIN; PLUGIN_MANAGE; ADMIN_WRITE] →
  (has_permission user_roles p = inr true ↔ "super_admin" ∈ user_roles).
Proof.
  intros Hp. rewrite has_permission_true_iff. split.
  - intros (r & Hr & Hgrant).
    assert (r = SUPER_ADMIN) as ->; [|done].
    apply granted_dec in Hgrant.
    repeat (apply elem_of_cons in Hp as [->|Hp]);
      try (by apply elem_of_nil in Hp);
      destruct r; first [done | discriminate Hgrant].
  - intros Hin. exists SUPER_ADMIN. split; [done|].
    apply granted_dec.
    repeat (apply elem_of_cons in Hp as [->|Hp]);
      try (by apply elem_of_nil in Hp); reflexivity.
Qed.

Lemma super_admin_only_permissions_witness :
  has_permission ["admin"; "super_admin"] ADMIN_WRITE = inr true.
Proof.
  apply (super_admin_only_permissions ["admin"; "super_admin"] ADMIN_WRITE).
  - repeat constructor.
  - repeat constructor.
Defined.

(** X4: deleting a contact, company, deal, project, task or team takes the
    [admin] or the [super_admin] role: a caller holds such a permission
    exactly when one of the two names is among the role names. *)
Theorem delete_permissions_need_admin (user_roles : list string) (p : Permission) :
  p ∈ [CONTACT_DELETE; COMPANY_DELETE; DEAL_DELETE;
       PROJECT_DELETE; TASK_DELETE; TEAM_DELETE] →
  (has_permission user_roles p = inr true
   ↔ "admin" ∈ user_roles ∨ "super_admin" ∈ user_roles).
Proof.
  intros Hp. rewrite has_permission_true_iff. split.
  - intros (r & Hr & Hgrant).
    assert (r = ADMIN ∨ r = SUPER_ADMIN) as [->| ->]; [|by left|by right].
    apply granted_dec in Hgrant.
    repeat (apply elem_of_cons in Hp as [->|Hp]);
      try (by apply elem_of_nil in Hp);
      destruct r; first [by left | by right | discriminate Hgrant].
  - intros [Hin|Hin]; [exists ADMIN|exists SUPER_ADMIN]; (split; [done|]);
      apply granted_dec;
      repeat (apply elem_of_cons in Hp as [->|Hp]);
      try (by apply elem_of_nil in Hp); reflexivity.
Qed.

Lemma delete_permissions_need_admin_witness :
  has_permission ["manager"; "admin"] DEAL_DELETE = inr true.
Proof.
  apply (delete_permissions_need_admin ["manager"; "admin"] DEAL_DELETE).
  - repeat constructor.
  - left. repeat constructor.
Defined.

(** X5: reading projects and tasks is granted by every role: a caller
    holds [project:read], and [task:read], exactly when at least one of the
    role names is recognized. *)
Theorem every_role_reads_projects_and_tasks (user_roles : list string) (p : Permission) :
  p ∈ [PROJECT_READ; TASK_READ] →
  (has_permission user_roles p = inr true
   ↔ ∃ r : Role, Role_value r ∈ user_roles).
Proof.
  intros Hp. rewrite has_permission_true_iff. split.
  - intros (r & Hr & _). by exists r.
  - intros (r & Hr). exists r. split; [done|]. apply granted_dec.
    repeat (apply elem_of_cons in Hp as [->|Hp]);
      try (by apply elem_of_nil in Hp); by destruct r.
Qed.

Lemma every_role_reads_projects_and_tasks_witness :
  has_permission ["intern"; "guest"] TASK_READ = inr true.
Proof.
  apply (every_role_reads_projects_and_tasks ["intern"; "guest"] TASK_READ).
  - repeat constructor.
  - exists GUEST. repeat constructor.
Defined.

(** X6: the values of the two enumerations identify their members: no two
    permissions and no two roles share a value, [Role(...)] finds the role
    a value belongs to, and [list(Permission)] lists thirty members, none
    twice. *)
Theorem enum_values_identify_members :
  (∀ p q : Permission, Permission_value p = Permission_value q ↔ p = q)
  ∧ (∀ r s : Role, Role_value r = Role_value s ↔ r = s)
  ∧ (∀ (role_str : string) (r : Role),
       Role_call role_str = inr r ↔ Role_value r = role_str)
  ∧ length Permission_members = 30
  ∧ NoDup Permission_members.
Proof.
  split; [|split; [|split; [|split]]].
  - intros p q. split; [|by intros ->].
    destruct p; destruct q; simpl; intros Heq;
      first [reflexivity | discriminate Heq].
  - intros r s. split; [|by intros ->].
    destruct r; destruct s; simpl; intros Heq;
      first [reflexivity | discriminate Heq].
  - apply Role_call_inr.
  - reflexivity.
  - exact (@NoDup_enum Permission _ Permission_finite).
Qed.

(** X7: [User.is_admin] and the catalog agree on users that are not
    superusers: such a user is an admin exactly when the roles grant
    [admin:read]. The superuser flag itself grants nothing in the catalog: a
    superuser is an admin, and without a recognized role holds no
    permission. *)
Theorem is_admin_matches_admin_read (u : User) :
  (is_superuser u = false →
   (is_admin u = true ↔ has_permission (roles u) ADMIN_READ = inr true))
  ∧ (is_superuser u = true →
     is_admin u = true
     ∧ (Forall unrecognized (roles u) →
        ∀ p, has_permission (roles u) p = inr false)).
Proof.
  split.
  - intros Hsu. unfold is_admin. rewrite Hsu. simpl.
    rewrite orb_true_iff, !list_contains_elem_of, has_permission_true_iff.
    split.
    + intros [Hin|Hin]; [exists ADMIN|exists SUPER_ADMIN];
        (split; [done|by apply granted_dec]).
    + intros (r & Hr & Hgrant). apply granted_dec in Hgrant.
      destruct r; first [by left | by right | discriminate Hgrant].
  - intros Hsu. split.
    + unfold is_admin. by rewrite Hsu.
    + intros Hun p. rewrite has_permission_spec.
      by rewrite resolved_roles_unrecognized.
Qed.

(** X23: the table has one entry for every role, so the empty default of
    [get_role_permissions] is never used: each role is granted a list of
    permissions that is not empty and names no permission twice. *)
Theorem every_role_has_an_entry (r : Role) :
  (∃ permissions,
     (r, permissions) ∈ ROLE_PERMISSIONS
     ∧ get_role_permissions r = permissions)
  ∧ get_role_permissions r ≠ []
  ∧ NoDup (get_role_permissions r)
  ∧ NoDup ROLE_PERMISSIONS.*1.
Proof.
  split; [|split; [|split]].
  - eexists. split; [|reflexivity].
    destruct r; unfold get_role_permissions, dict_get; simpl;
      repeat first [apply list_elem_of_here | apply list_elem_of_further].
  - by destruct r.
  - destruct r; apply (bool_decide_unpack _); by vm_compute.
  - apply (bool_decide_unpack _). by vm_compute.
Qed.

End PermissionCatalogMore.

(** ** Tokens, continued *)

Section TokensMore.
Import Py Lib Errors Config Jwt Dependencies Notions.
Context `{builtins : Builtins} `{jose : Jose} (settings : Settings).

Lemma datetime_add_range (d delta r : Z) :
  datetime_add d delta = inr r → (DATETIME_MIN ≤ r ≤ DATETIME_MAX)%Z.
Proof.
  unfold datetime_add.
  destruct (Z.leb_spec DATETIME_MIN (d + delta));
    destruct (Z.leb_spec (d + delta) DATETIME_MAX); simpl; try discriminate.
  intros [= <-]. lia.
Qed.

Lemma access_expire_range (expires_delta : option Z) (now expire : Z) :
  access_expire settings expires_delta now = inr expire →
  (DATETIME_MIN ≤ expire ≤ DATETIME_MAX)%Z.
Proof.
  unfold access_expire. destruct (timedelta_truthy expires_delta).
  - apply datetime_add_range.
  - destruct (timedelta_minutes _) as [e|delta]; simpl; [discriminate|].
    apply datetime_add_range.
Qed.

Lemma timegm_range (us : Z) :
  (DATETIME_MIN ≤ us ≤ DATETIME_MAX)%Z →
  (-62135596800 ≤ timegm us ≤ 253402300799)%Z.
Proof.
  unfold DATETIME_MIN, DATETIME_MAX. intros Hrange.
  pose proof (timegm_bounds us). lia.
Qed.

Lemma get_payload_exp (data : dict) (expire iat : Z) (ty : string) :
  get (numeric_dates (stamp data expire iat ty)) "exp" = VInt (timegm expire).
Proof. unfold get. by rewrite dict_get_payload. Qed.

Lemma get_payload_type (data : dict) (expire iat : Z) (ty : string) :
  get (numeric_dates (stamp data expire iat ty)) "type" = VStr ty.
Proof. unfold get. by rewrite dict_get_payload. Qed.

(** The checks on the caller's claims read five keys. *)
Lemma issued_checks_ext (data data' : dict) (expire now : Z) :
  (∀ k, k ∈ ["nbf"; "aud"; "sub"; "jti"; "at_hash"] →
        dict_get data' k = dict_get data k) →
  issued_checks data' expire now = issued_checks data expire now.
Proof.
  intros Hsame.
  unfold issued_checks, validate_nbf, validate_aud, validate_sub,
    validate_jti, validate_at_hash.
  rewrite !dict_get_numeric_dates. simpl.
  by rewrite !Hsame by (repeat constructor).
Qed.

(** X8: a refresh token decodes, at any instant up to its expiry, to a
    payload with the [sub] it was issued for and with type ["refresh"],
    provided the caller's claims pass the decoder's checks, which for
    [sub] means that it is a string; that payload passes the type check
    for ["refresh"] and fails the one for ["access"]. The library is
    assumed to satisfy [jose_roundtrip]. *)
Theorem refresh_token_roundtrip
    (data : dict) (sub : value) (expires_delta : option Z)
    (now now_iat elapsed expire : Z) (token : string) :
  jose_roundtrip (SECRET_KEY settings) (ALGORITHM settings) →
  is_dict data →
  dict_get data "sub" = Some sub →
  refresh_expire settings expires_delta now = inr expire →
  create_refresh_token settings data expires_delta now now_iat = inr token →
  (0 ≤ elapsed ≤ expire - now)%Z →
  registered_claims_pass data (now + elapsed) →
  ∃ payload,
    decode_token settings token (now + elapsed) = inr payload
    ∧ dict_get payload "sub" = Some sub
    ∧ dict_get payload "type" = Some (VStr "refresh")
    ∧ verify_token_type payload "refresh" = inr tt
    ∧ ∃ e, verify_token_type payload "access" = inl e
           ∧ is_AuthenticationError e = true.
Proof.
  intros Hlaw Hdict Hsub Hexp Hcreate Helapsed Hpass.
  pose proof (refresh_expire_encode settings _ _ _ _ _ _ Hexp Hcreate) as Henc.
  assert (Hle : (timegm (now + elapsed) ≤ timegm expire)%Z)
    by (apply timegm_mono; lia).
  exists (numeric_dates (stamp data expire now_iat "refresh")).
  split; [by apply decode_token_issued|].
  split; [by rewrite dict_get_payload_other|].
  split; [by rewrite dict_get_payload|].
  split.
  - unfold verify_token_type. rewrite get_payload_type.
    rewrite bool_decide_eq_false_2; [done|]. intros Hne. by apply Hne.
  - apply verify_token_type_mismatch. by rewrite get_payload_type.
Qed.

(** X9: the caller's claim map cannot set [exp], [iat] or [type]: whatever
    it holds under one of these keys is overwritten, so the claims that are
    encoded hold under every key what they hold without it, and the two
    tokens are decoded alike: to payloads that agree on every key, or to
    the same exception. The key keeps the place it has in the caller's
    map, so the two tokens need not be the same string. *)
Theorem reserved_claims_are_overwritten
    (data : dict) (k : string) (v : value) (expires_delta : option Z)
    (now now_iat now_dec expire : Z) (token token' : string) :
  k ∈ ["exp"; "iat"; "type"] →
  (∀ ty k',
     dict_get (stamp (dict_set data k v) expire now_iat ty) k'
     = dict_get (stamp data expire now_iat ty) k')
  ∧ (jose_roundtrip (SECRET_KEY settings) (ALGORITHM settings) →
     is_dict data →
     access_expire settings expires_delta now = inr expire →
     create_access_token settings (dict_set data k v) expires_delta now now_iat
     = inr token' →
     create_access_token settings data expires_delta now now_iat = inr token →
     match decode_token settings token' now_dec,
           decode_token settings token now_dec with
     | inr payload', inr payload =>
         ∀ k', dict_get payload' k' = dict_get payload k'
     | inl e', inl e => e' = e
     | _, _ => False
     end).
Proof.
  intros Hk.
  assert (Hstamp : ∀ ty k',
    dict_get (stamp (dict_set data k v) expire now_iat ty) k'
    = dict_get (stamp data expire now_iat ty) k').
  { intros ty k'. rewrite !dict_get_stamp.
    destruct (String.eqb_spec k' "exp") as [->|Hexp]; [done|].
    destruct (String.eqb_spec k' "iat") as [->|Hiat]; [done|].
    destruct (String.eqb_spec k' "type") as [->|Htype]; [done|].
    apply dict_get_set_ne. intros ->.
    repeat (apply elem_of_cons in Hk as [->|Hk]); try done.
    by apply elem_of_nil in Hk. }
  split; [exact Hstamp|].
  intros Hlaw Hdict Hexp Hcreate' Hcreate.
  pose proof (access_expire_encode settings _ _ _ _ _ _ Hexp Hcreate') as Henc'.
  pose proof (access_expire_encode settings _ _ _ _ _ _ Hexp Hcreate) as Henc.
  unfold decode_token.
  rewrite (jwt_decode_issued settings _ _ _ _ _ now_dec Hlaw
             (is_dict_set _ k v Hdict) Henc').
  rewrite (jwt_decode_issued settings _ _ _ _ _ now_dec Hlaw Hdict Henc).
  rewrite (issued_checks_ext data (dict_set data k v)).
  - destruct (issued_checks data expire now_dec) as [e|[]]; simpl.
    + by destruct (is_JWTError e).
    + intros k'. rewrite !dict_get_numeric_dates. by rewrite Hstamp.
  - intros k' Hk'. apply dict_get_set_ne. intros ->.
    repeat (apply elem_of_cons in Hk as [->|Hk]);
      repeat (apply elem_of_cons in Hk' as [Hk'|Hk']); try done;
      by apply elem_of_nil in Hk || by apply elem_of_nil in Hk'.
Qed.

(** X10: an [expires_delta] of zero is not a lifetime of zero: like [None]
    it selects the configured default, for access and for refresh tokens,
    which is the instant of the call plus that default wherever
    [timedelta] and [datetime] can hold the values. *)
Theorem zero_expires_delta_selects_default
    (data : dict) (now now_iat : Z) :
  create_access_token settings data (Some 0%Z) now now_iat
  = create_access_token settings data None now now_iat
  ∧ access_expire settings (Some 0%Z) now = access_expire settings None now
  ∧ create_refresh_token settings data (Some 0%Z) now now_iat
    = create_refresh_token settings data None now now_iat
  ∧ refresh_expire settings (Some 0%Z) now = refresh_expire settings None now
  ∧ ((TIMEDELTA_MIN ≤ ACCESS_TOKEN_EXPIRE_MINUTES settings * 60000000
      ≤ TIMEDELTA_MAX)%Z →
     (DATETIME_MIN ≤ now + ACCESS_TOKEN_EXPIRE_MINUTES settings * 60000000
      ≤ DATETIME_MAX)%Z →
     access_expire settings (Some 0%Z) now
     = inr (now + ACCESS_TOKEN_EXPIRE_MINUTES settings * 60000000)%Z)
  ∧ ((TIMEDELTA_MIN ≤ REFRESH_TOKEN_EXPIRE_DAYS settings * 86400000000
      ≤ TIMEDELTA_MAX)%Z →
     (DATETIME_MIN ≤ now + REFRESH_TOKEN_EXPIRE_DAYS settings * 86400000000
      ≤ DATETIME_MAX)%Z →
     refresh_expire settings (Some 0%Z) now
     = inr (now + REFRESH_TOKEN_EXPIRE_DAYS settings * 86400000000)%Z).
Proof.
  split; [done|]. split; [done|]. split; [done|]. split; [done|].
  unfold access_expire, refresh_expire, timedelta_minutes, timedelta_days,
    timedelta_of, datetime_add. simpl.
  split; intros Hdelta Hsum.
  - replace (ACCESS_TOKEN_EXPIRE_MINUTES settings * 60 * 1000000)%Z
      with (ACCESS_TOKEN_EXPIRE_MINUTES settings * 60000000)%Z by lia.
    destruct (Z.leb_spec TIMEDELTA_MIN
                (ACCESS_TOKEN_EXPIRE_MINUTES settings * 60000000)); [|lia].
    destruct (Z.leb_spec (ACCESS_TOKEN_EXPIRE_MINUTES settings * 60000000)
                TIMEDELTA_MAX); [|lia].
    simpl.
    destruct (Z.leb_spec DATETIME_MIN
                (now + ACCESS_TOKEN_EXPIRE_MINUTES settings * 60000000)); [|lia].
    by destruct (Z.leb_spec
                   (now + ACCESS_TOKEN_EXPIRE_MINUTES settings * 60000000)
                   DATETIME_MAX); [|lia].
  - replace (REFRESH_TOKEN_EXPIRE_DAYS settings * 86400 * 1000000)%Z
      with (REFRESH_TOKEN_EXPIRE_DAYS settings * 86400000000)%Z by lia.
    destruct (Z.leb_spec TIMEDELTA_MIN
                (REFRESH_TOKEN_EXPIRE_DAYS settings * 86400000000)); [|lia].
    destruct (Z.leb_spec (REFRESH_TOKEN_EXPIRE_DAYS settings * 86400000000)
                TIMEDELTA_MAX); [|lia].
    simpl.
    destruct (Z.leb_spec DATETIME_MIN
                (now + REFRESH_TOKEN_EXPIRE_DAYS settings * 86400000000)); [|lia].
    by destruct (Z.leb_spec
                   (now + REFRESH_TOKEN_EXPIRE_DAYS settings * 86400000000)
                   DATETIME_MAX); [|lia].
Qed.

(** X11: once the clock has passed the second of its [exp], an access
    token is never decoded. Unless the caller's map holds an [nbf] that
    [int()] does not take, on which the decoder stops with a [TypeError],
    the token is refused everywhere with the same outcome as garbage:
    [decode_token] raises the 401 [AuthenticationError] with the fixed
    message, [get_token_expiry] gives [None], [is_token_expired] gives
    [True] and [get_current_user_id] raises [AuthenticationError]. The
    library is assumed to satisfy [jose_roundtrip]. *)
Theorem expired_access_token_is_refused
    (data : dict) (expires_delta : option Z)
    (now now_iat now_dec now_cmp expire : Z) (token : string) :
  jose_roundtrip (SECRET_KEY settings) (ALGORITHM settings) →
  is_dict data →
  access_expire settings expires_delta now = inr expire →
  create_access_token settings data expires_delta now now_iat = inr token →
  (timegm expire < timegm now_dec)%Z →
  (∃ e, decode_token settings token now_dec = inl e)
  ∧ (validate_nbf (numeric_dates data) now_dec ≠ inl TypeError →
     (∃ e, decode_token settings token now_dec = inl (NexusHub e)
           ∧ exc_class e = AuthenticationError_
           ∧ status_code e = 401%Z
           ∧ message e = "Invalid or expired token")
     ∧ get_token_expiry settings token now_dec = inr None
     ∧ is_token_expired settings token now_dec now_cmp = inr true
     ∧ ∃ e, get_current_user_id settings token now_dec = inl e
            ∧ is_AuthenticationError e = true).
Proof.
  intros Hlaw Hdict Hexp Hcreate Hpast.
  pose proof (access_expire_encode settings _ _ _ _ _ _ Hexp Hcreate) as Henc.
  pose proof (jwt_decode_issued settings _ _ _ _ _ now_dec Hlaw Hdict Henc) as Hdec.
  assert (Hchecks : issued_checks data expire now_dec
                    = (_ <- validate_nbf (numeric_dates data) now_dec ;;
                       raise (JWTError "Signature has expired."))).
  { unfold issued_checks.
    by destruct (Z.ltb_spec (timegm expire) (timegm now_dec)); [|lia]. }
  rewrite Hchecks in Hdec. clear Hchecks.
  split.
  - unfold decode_token. rewrite Hdec.
    destruct (validate_nbf _ _) as [e|[]]; simpl; [|by eexists].
    destruct (is_JWTError e); by eexists.
  - intros Hnbf.
    assert (Hraise : ∃ msg, decode_token settings token now_dec
      = inl (AuthenticationError "Invalid or expired token"
               (Some {[ "error" := VStr msg ]}))).
    { destruct (validate_nbf_cases (numeric_dates data) now_dec)
        as [Hv|[[msg Hv]|Hv]]; [| |done].
      - exists "Signature has expired.". apply decode_token_JWTError.
        by rewrite Hdec, Hv.
      - exists msg. apply decode_token_JWTError. by rewrite Hdec, Hv. }
    destruct Hraise as [msg Hraise].
    split; [|split; [|split]].
    + eexists. split; [exact Hraise|]. done.
    + unfold get_token_expiry. by rewrite Hraise.
    + unfold is_token_expired, get_token_expiry. by rewrite Hraise.
    + unfold get_current_user_id. destruct (negb (truthy (VStr token))).
      * by eexists.
      * rewrite Hraise. by eexists.
Qed.

(** X12: the expiry read back from an access token is its [exp] cut to the
    whole second: [get_token_expiry], at any instant up to the end of the
    second in which the token expires, returns the start of that second,
    less than a second before the instant [create_access_token] computed.
    A token expiring in second 0 of the epoch reads as having no expiry. *)
Theorem issued_token_expiry_is_whole_second
    (data : dict) (expires_delta : option Z)
    (now now_iat now_dec expire : Z) (token : string) :
  jose_roundtrip (SECRET_KEY settings) (ALGORITHM settings) →
  is_dict data →
  access_expire settings expires_delta now = inr expire →
  create_access_token settings data expires_delta now now_iat = inr token →
  (timegm now_dec ≤ timegm expire)%Z →
  registered_claims_pass data now_dec →
  (timegm expire ≠ 0%Z →
   get_token_expiry settings token now_dec
   = inr (Some (timegm expire * 1000000)%Z)
   ∧ (expire - 1000000 < timegm expire * 1000000 ≤ expire)%Z)
  ∧ (timegm expire = 0%Z →
     get_token_expiry settings token now_dec = inr None).
Proof.
  intros Hlaw Hdict Hexp Hcreate Hle Hpass.
  pose proof (access_expire_encode settings _ _ _ _ _ _ Hexp Hcreate) as Henc.
  pose proof (decode_token_issued settings _ _ _ _ _ _ Hlaw Hdict Henc Hle Hpass)
    as Hdec.
  split.
  - intros Hnz. split; [|apply timegm_bounds].
    apply (get_token_expiry_of_payload settings _ _ _ _ Hdec); [|done|].
    + apply get_payload_exp.
    + apply timegm_range. by apply (access_expire_range expires_delta now).
  - intros Hz. unfold get_token_expiry. rewrite Hdec. simpl.
    rewrite get_payload_exp. simpl. by rewrite Hz.
Qed.

(** X13: while an issued access token decodes, that is up to the end of the
    second in which it expires, [is_token_expired] compares the start of
    that second with the clock: it is [False] up to that instant, so from
    the moment of issue for any lifetime of at least one second, and [True]
    during the remainder of that second although the token still
    decodes. *)
Theorem issued_token_expired_after_whole_second
    (data : dict) (expires_delta : option Z)
    (now now_iat t expire : Z) (token : string) :
  jose_roundtrip (SECRET_KEY settings) (ALGORITHM settings) →
  is_dict data →
  access_expire settings expires_delta now = inr expire →
  create_access_token settings data expires_delta now now_iat = inr token →
  timegm expire ≠ 0%Z →
  (timegm t ≤ timegm expire)%Z →
  registered_claims_pass data t →
  is_token_expired settings token t t
  = inr (bool_decide (timegm expire * 1000000 < t)%Z)
  ∧ ((timegm expire * 1000000 < t)%Z →
     (∃ payload, decode_token settings token t = inr payload)
     ∧ is_token_expired settings token t t = inr true)
  ∧ ((now + 1000000 ≤ expire)%Z →
     registered_claims_pass data now →
     is_token_expired settings token now now = inr false).
Proof.
  intros Hlaw Hdict Hexp Hcreate Hnz Hle Hpass.
  pose proof (access_expire_encode settings _ _ _ _ _ _ Hexp Hcreate) as Henc.
  assert (Hcmp : ∀ t', (timegm t' ≤ timegm expire)%Z →
    registered_claims_pass data t' →
    is_token_expired settings token t' t'
    = inr (bool_decide (timegm expire * 1000000 < t')%Z)).
  { intros t' Ht' Hpass'.
    pose proof (decode_token_issued settings _ _ _ _ _ _ Hlaw Hdict Henc Ht' Hpass')
      as Hdec.
    unfold is_token_expired.
    rewrite (get_token_expiry_of_payload settings _ _ _ (timegm expire) Hdec);
      [|apply get_payload_exp|done|].
    - simpl. f_equal. destruct (Z.ltb_spec (timegm expire * 1000000) t').
      + by rewrite bool_decide_eq_true_2.
      + rewrite bool_decide_eq_false_2; [done|lia].
    - apply timegm_range. by apply (access_expire_range expires_delta now). }
  split; [by apply Hcmp|]. split.
  - intros Hlate. split.
    + eexists. by apply (decode_token_issued settings data expire now_iat "access").
    + rewrite Hcmp by done. by rewrite bool_decide_eq_true_2.
  - intros Hlife Hpass'.
    pose proof (timegm_bounds expire).
    rewrite Hcmp; [|apply timegm_mono; lia|done].
    rewrite bool_decide_eq_false_2; [done|lia].
Qed.

(** X14: issuing and reading back compose. For an access token issued from
    a claim map whose [nbf] and [aud] the decoder does not object to,
    [get_current_user_id] gives, at any instant up to the expiry: for a
    [sub] that is a string and not empty, the integer the string reads as,
    and a [ValueError] when it reads as none (the [str] of a [UUID], for
    one); for no [sub] or the empty string, the [AuthenticationError] for
    an invalid payload; and for a [sub] that is not a string (an integer
    id, [None]) the [AuthenticationError] of a token that does not decode.
    The library is assumed to satisfy [jose_roundtrip] and to issue no
    empty token. *)
Theorem issued_token_identifies_subject
    (data : dict) (expires_delta : option Z)
    (now now_iat now_dec expire : Z) (token : string) :
  jose_roundtrip (SECRET_KEY settings) (ALGORITHM settings) →
  is_dict data →
  access_expire settings expires_delta now = inr expire →
  create_access_token settings data expires_delta now now_iat = inr token →
  token ≠ "" →
  (timegm now_dec ≤ timegm expire)%Z →
  validate_nbf (numeric_dates data) now_dec = inr tt →
  validate_aud data = inr tt →
  (∀ s, dict_get data "sub" = Some (VStr s) → s ≠ "" →
        validate_jti data = inr tt → validate_at_hash data = inr tt →
        get_current_user_id settings token now_dec
        = match int_of_str s with
          | Some n => inr n
          | None => inl ValueError
          end)
  ∧ (dict_get data "sub" = None ∨ dict_get data "sub" = Some (VStr "") →
     validate_jti data = inr tt → validate_at_hash data = inr tt →
     get_current_user_id settings token now_dec
     = inl (AuthenticationError "Invalid token payload" None))
  ∧ (∀ sub, dict_get data "sub" = Some sub → (∀ s, sub ≠ VStr s) →
        get_current_user_id settings token now_dec
        = inl (AuthenticationError "Invalid or expired token"
                 (Some {[ "error" := VStr "Subject must be a string." ]}))).
Proof.
  intros Hlaw Hdict Hexp Hcreate Hne Hle Hnbf Haud.
  pose proof (access_expire_encode settings _ _ _ _ _ _ Hexp Hcreate) as Henc.
  assert (Htok : negb (truthy (VStr token)) = false).
  { simpl. by destruct (String.eqb_spec token ""). }
  assert (Hdec : validate_sub data = inr tt →
    validate_jti data = inr tt → validate_at_hash data = inr tt →
    decode_token settings token now_dec
    = inr (numeric_dates (stamp data expire now_iat "access"))).
  { intros Hsub Hjti Hat. by apply decode_token_issued. }
  assert (Hget : get (numeric_dates (stamp data expire now_iat "access")) "sub"
                 = get data "sub").
  { unfold get. by rewrite dict_get_payload_other. }
  split; [|split].
  - intros s Hsub Hs Hjti Hat. unfold get_current_user_id.
    rewrite Htok, Hdec; [|unfold validate_sub; by rewrite Hsub|done|done].
    simpl. rewrite Hget. unfold get. rewrite Hsub. simpl.
    destruct (String.eqb_spec s ""); [done|]. simpl.
    by destruct (int_of_str s).
  - intros Hsub Hjti Hat. unfold get_current_user_id.
    rewrite Htok, Hdec;
      [|unfold validate_sub; by destruct Hsub as [->| ->]|done|done].
    simpl. rewrite Hget. unfold get. by destruct Hsub as [->| ->].
  - intros sub Hsub Hnostr. unfold get_current_user_id. rewrite Htok.
    by rewrite (decode_token_issued_sub settings data expire now_iat "access"
                  token now_dec sub).
Qed.

End TokensMore.

(** *** The further token properties on the stand-in codec *)

Section TokenExamplesMore.
Import Py Lib Errors Config Jwt Dependencies Notions Reference Examples.

Lemma refresh_token_roundtrip_witness :
  ∃ payload,
    decode_token example_settings (token_of example_refresh_token)
      (1000000000 + 86400000000)
    = inr payload
    ∧ dict_get payload "sub" = Some (VStr "42")
    ∧ dict_get payload "type" = Some (VStr "refresh")
    ∧ verify_token_type payload "refresh" = inr tt
    ∧ ∃ e, verify_token_type payload "access" = inl e
           ∧ is_AuthenticationError e = true.
Proof.
  assert (Hdict : is_dict [("sub", VStr "42")]) by apply NoDup_singleton.
  assert (Hsub : dict_get [("sub", VStr "42")] "sub" = Some (VStr "42"))
    by reflexivity.
  assert (Hexp : refresh_expire example_settings None 1000000000
                 = inr 2593000000000%Z) by reflexivity.
  assert (Hcreate :
    create_refresh_token example_settings [("sub", VStr "42")]
      None 1000000000 1000000000
    = inr (token_of example_refresh_token))
    by (vm_compute; reflexivity).
  assert (Hel : (0 ≤ 86400000000 ≤ 2593000000000 - 1000000000)%Z) by lia.
  assert (Hpass : registered_claims_pass (builtins := ref_builtins)
                    [("sub", VStr "42")] (1000000000 + 86400000000))
    by (vm_compute; repeat split).
  exact (refresh_token_roundtrip (builtins := ref_builtins) (jose := ref_jose)
           example_settings [("sub", VStr "42")] (VStr "42") None
           1000000000 1000000000 86400000000 2593000000000 _
           (ref_jose_roundtrip _ _) Hdict Hsub Hexp Hcreate Hel Hpass).
Defined.

Lemma reserved_claims_are_overwritten_witness :
  dict_get (stamp (dict_set [("sub", VStr "42")] "type" (VStr "refresh"))
              4600000000 1000000000 "access") "type"
  = dict_get (stamp [("sub", VStr "42")] 4600000000 1000000000 "access") "type"
  ∧ match decode_token example_settings
            (token_of (create_access_token example_settings
                         (dict_set [("sub", VStr "42")] "type" (VStr "refresh"))
                         None 1000000000 1000000000))
            1000000000,
          decode_token example_settings
            (token_of (create_access_token example_settings [("sub", VStr "42")]
                         None 1000000000 1000000000))
            1000000000 with
    | inr payload', inr payload =>
        ∀ k', dict_get payload' k' = dict_get payload k'
    | inl e', inl e => e' = e
    | _, _ => False
    end.
Proof.
  assert (Hk : "type" ∈ ["exp"; "iat"; "type"]) by (repeat constructor).
  assert (Hdict : is_dict [("sub", VStr "42")]) by apply NoDup_singleton.
  assert (Hexp : access_expire example_settings None 1000000000
                 = inr 4600000000%Z) by reflexivity.
  assert (Hcreate' :
    create_access_token example_settings
      (dict_set [("sub", VStr "42")] "type" (VStr "refresh"))
      None 1000000000 1000000000
    = inr (token_of (create_access_token example_settings
                       (dict_set [("sub", VStr "42")] "type" (VStr "refresh"))
                       None 1000000000 1000000000)))
    by (vm_compute; reflexivity).
  assert (Hcreate :
    create_access_token example_settings [("sub", VStr "42")]
      None 1000000000 1000000000
    = inr (token_of (create_access_token example_settings [("sub", VStr "42")]
                       None 1000000000 1000000000)))
    by (vm_compute; reflexivity).
  destruct (reserved_claims_are_overwritten (builtins := ref_builtins)
              (jose := ref_jose) example_settings
              [("sub", VStr "42")] "type" (VStr "refresh") None
              1000000000 1000000000 1000000000 4600000000
              (token_of (create_access_token example_settings [("sub", VStr "42")]
                           None 1000000000 1000000000))
              (token_of (create_access_token example_settings
                           (dict_set [("sub", VStr "42")] "type" (VStr "refresh"))
                           None 1000000000 1000000000))
              Hk)
    as [Hstamp Hdecode].
  split; [apply Hstamp|].
  exact (Hdecode (ref_jose_roundtrip _ _) Hdict Hexp Hcreate' Hcreate).
Defined.

Lemma zero_expires_delta_selects_default_witness :
  access_expire example_settings (Some 0%Z) 1000000000
  = inr (1000000000 + ACCESS_TOKEN_EXPIRE_MINUTES example_settings * 60000000)%Z.
Proof.
  destruct (zero_expires_delta_selects_default example_settings
              [("sub", VStr "42")] 1000000000 1000000000)
    as (_ & _ & _ & _ & Haccess & _).
  apply Haccess; vm_compute; split; discriminate.
Defined.

Lemma expired_access_token_is_refused_witness :
  get_token_expiry example_settings
    (token_of (create_access_token example_settings [("sub", VStr "42")]
                 (Some (-1000000)%Z) 1000000000 1000000000))
    1000000000
  = inr None.
Proof.
  assert (Hdict : is_dict [("sub", VStr "42")]) by apply NoDup_singleton.
  assert (Hexp : access_expire example_settings (Some (-1000000)%Z) 1000000000
                 = inr 999000000%Z) by reflexivity.
  assert (Hcreate :
    create_access_token example_settings [("sub", VStr "42")]
      (Some (-1000000)%Z) 1000000000 1000000000
    = inr (token_of (create_access_token example_settings [("sub", VStr "42")]
                       (Some (-1000000)%Z) 1000000000 1000000000)))
    by (vm_compute; reflexivity).
  assert (Hpast : (timegm 999000000 < timegm 1000000000)%Z)
    by (vm_compute; reflexivity).
  destruct (expired_access_token_is_refused (builtins := ref_builtins)
              (jose := ref_jose) example_settings
              [("sub", VStr "42")] (Some (-1000000)%Z)
              1000000000 1000000000 1000000000 1000000000 999000000 _
              (ref_jose_roundtrip _ _) Hdict Hexp Hcreate Hpast) as [_ Hrefused].
  destruct Hrefused as (_ & Hexpiry & _); [discriminate|].
  exact Hexpiry.
Defined.

Lemma issued_token_expiry_is_whole_second_witness :
  get_token_expiry example_settings
    (token_of (create_access_token example_settings [("sub", VStr "42")]
                 (Some 1500000%Z) 1000000000 1000000000))
    1001900000
  = inr (Some (timegm 1001500000 * 1000000)%Z).
Proof.
  assert (Hdict : is_dict [("sub", VStr "42")]) by apply NoDup_singleton.
  assert (Hexp : access_expire example_settings (Some 1500000%Z) 1000000000
                 = inr 1001500000%Z) by reflexivity.
  assert (Hcreate :
    create_access_token example_settings [("sub", VStr "42")]
      (Some 1500000%Z) 1000000000 1000000000
    = inr (token_of (create_access_token example_settings [("sub", VStr "42")]
                       (Some 1500000%Z) 1000000000 1000000000)))
    by (vm_compute; reflexivity).
  assert (Hle : (timegm 1001900000 ≤ timegm 1001500000)%Z)
    by (vm_compute; discriminate).
  assert (Hpass : registered_claims_pass (builtins := ref_builtins)
                    [("sub", VStr "42")] 1001900000)
    by (vm_compute; repeat split).
  destruct (issued_token_expiry_is_whole_second (builtins := ref_builtins)
              (jose := ref_jose) example_settings
              [("sub", VStr "42")] (Some 1500000%Z)
              1000000000 1000000000 1001900000 1001500000 _
              (ref_jose_roundtrip _ _) Hdict Hexp Hcreate Hle Hpass) as [Hsome _].
  apply Hsome. vm_compute. discriminate.
Defined.

Lemma issued_token_expired_after_whole_second_witness :
  is_token_expired example_settings
    (token_of (create_access_token example_settings [("sub", VStr "42")]
                 (Some 1500000%Z) 1000000000 1000000000))
    1001900000 1001900000
  = inr true.
Proof.
  assert (Hdict : is_dict [("sub", VStr "42")]) by apply NoDup_singleton.
  assert (Hexp : access_expire example_settings (Some 1500000%Z) 1000000000
                 = inr 1001500000%Z) by reflexivity.
  assert (Hcreate :
    create_access_token example_settings [("sub", VStr "42")]
      (Some 1500000%Z) 1000000000 1000000000
    = inr (token_of (create_access_token example_settings [("sub", VStr "42")]
                       (Some 1500000%Z) 1000000000 1000000000)))
    by (vm_compute; reflexivity).
  assert (Hnz : timegm 1001500000 ≠ 0%Z) by (vm_compute; discriminate).
  assert (Hle : (timegm 1001900000 ≤ timegm 1001500000)%Z)
    by (vm_compute; discriminate).
  assert (Hpass : registered_claims_pass (builtins := ref_builtins)
                    [("sub", VStr "42")] 1001900000)
    by (vm_compute; repeat split).
  destruct (issued_token_expired_after_whole_second (builtins := ref_builtins)
              (jose := ref_jose) example_settings
              [("sub", VStr "42")] (Some 1500000%Z)
              1000000000 1000000000 1001900000 1001500000 _
              (ref_jose_roundtrip _ _) Hdict Hexp Hcreate Hnz Hle Hpass)
    as (_ & Hlate & _).
  destruct Hlate as [_ Hexpired]; [vm_compute; reflexivity|].
  exact Hexpired.
Defined.

Lemma issued_token_identifies_subject_witness :
  get_current_user_id example_settings
    (token_of example_access_token) 1000500000
  = inr 42%Z
  ∧ get_current_user_id example_settings
      (token_of (create_access_token example_settings [("sub", VInt 42)]
                   (Some 1000000%Z) 1000000000 1000000000))
      1000500000
    = inl (AuthenticationError "Invalid or expired token"
             (Some {[ "error" := VStr "Subject must be a string." ]})).
Proof.
  assert (Hexp : access_expire example_settings (Some 1000000%Z) 1000000000
                 = inr 1001000000%Z) by reflexivity.
  assert (Hle : (timegm 1000500000 ≤ timegm 1001000000)%Z)
    by (vm_compute; discriminate).
  split.
  - assert (Hdict : is_dict [("sub", VStr "42")]) by apply NoDup_singleton.
    assert (Hcreate :
      create_access_token example_settings [("sub", VStr "42")]
        (Some 1000000%Z) 1000000000 1000000000
      = inr (token_of example_access_token))
      by (vm_compute; reflexivity).
    assert (Hne : token_of example_access_token ≠ "")
      by (vm_compute; discriminate).
    destruct (issued_token_identifies_subject (builtins := ref_builtins)
                (jose := ref_jose) example_settings
                [("sub", VStr "42")] (Some 1000000%Z)
                1000000000 1000000000 1000500000 1001000000 _
                (ref_jose_roundtrip _ _) Hdict Hexp Hcreate Hne Hle
                eq_refl eq_refl) as [Hstr _].
    apply (Hstr "42"); [reflexivity|discriminate|reflexivity|reflexivity].
  - assert (Hdict : is_dict [("sub", VInt 42)]) by apply NoDup_singleton.
    assert (Hcreate :
      create_access_token example_settings [("sub", VInt 42)]
        (Some 1000000%Z) 1000000000 1000000000
      = inr (token_of (create_access_token example_settings [("sub", VInt 42)]
                         (Some 1000000%Z) 1000000000 1000000000)))
      by (vm_compute; reflexivity).
    assert (Hne : token_of (create_access_token example_settings [("sub", VInt 42)]
                              (Some 1000000%Z) 1000000000 1000000000) ≠ "")
      by (vm_compute; discriminate).
    destruct (issued_token_identifies_subject (builtins := ref_builtins)
                (jose := ref_jose) example_settings
                [("sub", VInt 42)] (Some 1000000%Z)
                1000000000 1000000000 1000500000 1001000000 _
                (ref_jose_roundtrip _ _) Hdict Hexp Hcreate Hne Hle
                eq_refl eq_refl) as (_ & _ & Hother).
    apply (Hother (VInt 42)); [reflexivity|discriminate].
Defined.

End TokenExamplesMore.

(** ** Passwords, continued *)

Section PasswordsMore.
Import Py Lib Password.
Context `{ph : PasswordHasher}.


End PasswordsMore.

Section PasswordExamplesMore.
Import Py Lib Password Reference.


End PasswordExamplesMore.

(** ** Login *)

Section Login.
Import Py Lib Errors Config Jwt Password Identity.

Lemma filter_snd_none {K A} (P : A → Prop) `{∀ x, Decision (P x)}
    (l : list (K * A)) :
  (∀ k x, (k, x) ∈ l → ¬ P x) → filter P l.*2 = [].
Proof.
  induction l as [|[k x] l IH]; intros Hnone; [done|].
  rewrite fmap_cons. simpl. rewrite filter_cons_False.
  - apply IH. intros k' x' Hin. apply (Hnone k'). by right.
  - apply (Hnone k). by left.
Qed.

Lemma filter_snd_unique {K A} (P : A → Prop) `{∀ x, Decision (P x)}
    (l : list (K * A)) (k : K) (x : A) :
  NoDup l.*1 → (k, x) ∈ l → P x →
  (∀ k' x', (k', x') ∈ l → P x' → k' = k) →
  filter P l.*2 = [x].
Proof.
  induction l as [|[k0 x0] l IH]; intros Hnodup Hin HP Huniq.
  - by apply elem_of_nil in Hin.
  - rewrite fmap_cons in Hnodup. simpl in Hnodup.
    apply NoDup_cons in Hnodup as [Hfresh Hnodup].
    rewrite fmap_cons. simpl.
    apply elem_of_cons in Hin as [[= <- <-]|Hin].
    + rewrite filter_cons_True by done. f_equal.
      apply filter_snd_none. intros k' x' Hin' HP'.
      apply Hfresh. rewrite <- (Huniq k' x'); [|by right|done].
      apply list_elem_of_fmap. by exists (k', x').
    + rewrite filter_cons_False.
      * apply IH; [done..|]. intros k' x' Hin'. apply Huniq. by right.
      * intros HP0. apply Hfresh.
        rewrite (Huniq k0 x0); [|by left|done].
        apply list_elem_of_fmap. by exists (k, x).
Qed.

Lemma filter_snd_one {K A} (P : A → Prop) `{∀ x, Decision (P x)}
    (l : list (K * A)) (k : K) (x : A) :
  (k, x) ∈ l → P x → (1 ≤ length (filter P l.*2))%nat.
Proof.
  induction l as [|[k0 x0] l IH]; intros Hin HP.
  - by apply elem_of_nil in Hin.
  - rewrite fmap_cons. simpl.
    apply elem_of_cons in Hin as [[= <- <-]|Hin].
    + rewrite filter_cons_True by done. simpl. lia.
    + rewrite filter_cons. case_decide; simpl; [lia|by apply IH].
Qed.

Lemma filter_snd_two {K A} (P : A → Prop) `{∀ x, Decision (P x)}
    (l : list (K * A)) (k1 k2 : K) (x1 x2 : A) :
  k1 ≠ k2 → (k1, x1) ∈ l → (k2, x2) ∈ l → P x1 → P x2 →
  (2 ≤ length (filter P l.*2))%nat.
Proof.
  induction l as [|[k0 x0] l IH]; intros Hne Hin1 Hin2 HP1 HP2.
  - by apply elem_of_nil in Hin1.
  - rewrite fmap_cons. simpl.
    apply elem_of_cons in Hin1 as [[= <- <-]|Hin1];
      apply elem_of_cons in Hin2 as [[= <- <-]|Hin2].
    + done.
    + rewrite filter_cons_True by done. simpl.
      pose proof (filter_snd_one P l k2 x2 Hin2 HP2). lia.
    + rewrite filter_cons_True by done. simpl.
      pose proof (filter_snd_one P l k1 x1 Hin1 HP1). lia.
    + rewrite filter_cons.
      pose proof (IH Hne Hin1 Hin2 HP1 HP2).
      case_decide; simpl; lia.
Qed.

Lemma get_by_email_or_username_none (identifier : string) (t : gmap N User) :
  (∀ k u, t !! k = Some u → ¬ login_matches identifier u) →
  get_by_email_or_username identifier t = (inr None, t).
Proof.
  intros Hnone. unfold get_by_email_or_username.
  rewrite filter_snd_none; [done|].
  intros k u Hin. apply (Hnone k). by apply elem_of_map_to_list.
Qed.

Lemma get_by_email_or_username_unique (identifier : string) (t : gmap N User)
    (k : N) (u : User) :
  t !! k = Some u → login_matches identifier u →
  (∀ k' u', t !! k' = Some u' → login_matches identifier u' → k' = k) →
  get_by_email_or_username identifier t = (inr (Some u), t).
Proof.
  intros Hk Hmatch Huniq. unfold get_by_email_or_username.
  rewrite (filter_snd_unique _ _ k u); [done| | |done|].
  - apply NoDup_fst_map_to_list.
  - by apply elem_of_map_to_list.
  - intros k' u' Hin. apply Huniq. by apply elem_of_map_to_list.
Qed.

Lemma get_by_email_or_username_ambiguous (identifier : string) (t : gmap N User)
    (k1 k2 : N) (u1 u2 : User) :
  k1 ≠ k2 →
  t !! k1 = Some u1 → t !! k2 = Some u2 →
  login_matches identifier u1 → login_matches identifier u2 →
  get_by_email_or_username identifier t
  = (inl (OtherException "MultipleResultsFound"), t).
Proof.
  intros Hne H1 H2 Hm1 Hm2. unfold get_by_email_or_username.
  pose proof (filter_snd_two (login_matches identifier) (map_to_list t)
                k1 k2 u1 u2 Hne) as Hlen.
  rewrite <- !elem_of_map_to_list in H1, H2.
  specialize (Hlen H1 H2 Hm1 Hm2).
  destruct (filter _ _) as [|a [|b rows]]; simpl in Hlen; [lia|lia|done].
Qed.

Context `{ph : PasswordHasher} `{jose : Jose} (settings : Settings).

(** X16: a login with an identifier no user has and a login with the wrong
    password for a user that exists end alike: both raise the one
    [AuthenticationError] with message "Invalid credentials", and neither
    writes to the table. *)
Theorem authenticate_invalid_credentials_uniform
    (credentials : LoginRequest) (clock : LoginClock) (t : gmap N User) :
  (∀ k u, t !! k = Some u → ¬ login_matches (login_username credentials) u)
  ∨ (∃ k u,
       t !! k = Some u
       ∧ login_matches (login_username credentials) u
       ∧ (∀ k' u', t !! k' = Some u' →
            login_matches (login_username credentials) u' → k' = k)
       ∧ verify_password (login_password credentials) (password_hash u)
         = inr false) →
  authenticate settings credentials clock t
  = (inl (AuthenticationError "Invalid credentials" None), t).
Proof.
  intros [Hnone|(k & u & Hk & Hmatch & Huniq & Hverify)]; unfold authenticate, db_bind.
  - by rewrite (get_by_email_or_username_none _ _ Hnone).
  - rewrite (get_by_email_or_username_unique _ _ _ _ Hk Hmatch Huniq).
    unfold db_lift. by rewrite Hverify.
Qed.


(** X18: an identifier that selects two users, being the email of one and
    the username of another, makes the login fail with
    [MultipleResultsFound] before any password is looked at. *)
Theorem authenticate_ambiguous_identifier
    (credentials : LoginRequest) (clock : LoginClock) (t : gmap N User)
    (k1 k2 : N) (u1 u2 : User) :
  k1 ≠ k2 →
  t !! k1 = Some u1 → t !! k2 = Some u2 →
  login_matches (login_username credentials) u1 →
  login_matches (login_username credentials) u2 →
  authenticate settings credentials clock t
  = (inl (OtherException "MultipleResultsFound"), t).
Proof.
  intros Hne H1 H2 Hm1 Hm2. unfold authenticate, db_bind.
  by rewrite (get_by_email_or_username_ambiguous _ _ _ _ _ _ Hne H1 H2 Hm1 Hm2).
Qed.

(** X19: no login returns a [TokenResponse]: every call of [authenticate]
    raises. On the path meant to succeed, for the one active user the
    identifier selects, with the password verified and both tokens
    issued, the login time is written to that user's row in the session
    and then [UserRead.model_validate] raises pydantic's
    [ValidationError], because [UserRead.id] is declared [int] and the
    user's id is a [UUID]. *)
Theorem authenticate_never_returns
    (credentials : LoginRequest) (clock : LoginClock) (t : gmap N User) :
  (∃ e, (authenticate settings credentials clock t).1 = inl e)
  ∧ (∀ k u access refresh,
       t !! k = Some u → id u = k →
       login_matches (login_username credentials) u →
       (∀ k' u', t !! k' = Some u' →
          login_matches (login_username credentials) u' → k' = k) →
       verify_password (login_password credentials) (password_hash u) = inr true →
       is_active u = true →
       create_access_token settings
         [("sub", VStr (uuid_str k)); ("email", VStr (email u));
          ("username", VStr (username u)); ("roles", VStrList (roles u))]
         None (at_access_exp clock) (at_access_iat clock) = inr access →
       create_refresh_token settings [("sub", VStr (uuid_str k))]
         None (at_refresh_exp clock) (at_refresh_iat clock) = inr refresh →
       authenticate settings credentials clock t
       = (inl (OtherException "pydantic.ValidationError"),
          <[k := set_last_login_at u (at_last_login clock)]> t)).
Proof.
  split.
  - unfold authenticate, db_bind, get_by_email_or_username.
    destruct (scalar_one_or_none _) as [e|[user|]]; [by eexists| |by eexists].
    unfold db_lift.
    destruct (verify_password _ _) as [e|[]]; simpl; [by eexists| |by eexists].
    destruct (is_active user); simpl; [|by eexists].
    unfold update_last_login, db_bind, repository_get.
    destruct (t !! id user) as [u|]; simpl.
    + destruct (create_access_token _ _ _ _ _) as [e|access]; [by eexists|].
      destruct (create_refresh_token _ _ _ _ _) as [e|refresh]; [by eexists|].
      rewrite lookup_insert_eq. by eexists.
    + destruct (create_access_token _ _ _ _ _) as [e|access]; [by eexists|].
      destruct (create_refresh_token _ _ _ _ _) as [e|refresh]; [by eexists|].
      destruct (t !! id user); by eexists.
  - intros k u access refresh Hk Hid Hmatch Huniq Hverify Hactive Haccess Hrefresh.
    unfold authenticate, db_bind.
    rewrite (get_by_email_or_username_unique _ _ _ _ Hk Hmatch Huniq).
    unfold db_lift. rewrite Hverify, Hactive. simpl.
    unfold update_last_login, db_bind, repository_get. rewrite Hid, Hk.
    rewrite Haccess, Hrefresh. by rewrite lookup_insert_eq.
Qed.

End Login.

(** *** Logins against the stand-in libraries *)

Section LoginExamples.
Import Py Lib Errors Config Jwt Password Identity Reference Examples MoreExamples.

Lemma authenticate_invalid_credentials_uniform_witness :
  authenticate example_settings
    {| login_username := "ada"; login_password := "wrongpassword" |}
    example_login_clock example_users
  = (inl (AuthenticationError "Invalid credentials" None), example_users)
  ∧ authenticate example_settings
      {| login_username := "nobody"; login_password := "wrongpassword" |}
      example_login_clock example_users
    = (inl (AuthenticationError "Invalid credentials" None), example_users).
Proof.
  split.
  - refine (authenticate_invalid_credentials_uniform (ph := ref_hasher)
              (jose := ref_jose) example_settings
              {| login_username := "ada"; login_password := "wrongpassword" |}
              example_login_clock example_users _).
    right. exists 7%N, example_user. split; [reflexivity|].
    split; [by right|]. split; [|reflexivity].
    intros k' u' Hk' Hm. unfold example_users in Hk'.
    apply lookup_insert_Some in Hk' as [[<- <-]|[Hne Hk']]; [done|].
    apply lookup_singleton_Some in Hk' as [<- <-].
    destruct Hm as [Hm|Hm]; discriminate Hm.
  - refine (authenticate_invalid_credentials_uniform (ph := ref_hasher)
              (jose := ref_jose) example_settings
              {| login_username := "nobody"; login_password := "wrongpassword" |}
              example_login_clock example_users _).
    left. intros k u Hk Hm. unfold example_users in Hk.
    apply lookup_insert_Some in Hk as [[<- <-]|[Hne Hk]].
    + destruct Hm as [Hm|Hm]; discriminate Hm.
    + apply lookup_singleton_Some in Hk as [<- <-].
      destruct Hm as [Hm|Hm]; discriminate Hm.
Defined.


Lemma authenticate_ambiguous_identifier_witness :
  authenticate example_settings
    {| login_username := "ada@example.org"; login_password := "Sup3rSecret!" |}
    example_login_clock example_ambiguous_users
  = (inl (OtherException "MultipleResultsFound"), example_ambiguous_users).
Proof.
  refine (authenticate_ambiguous_identifier (ph := ref_hasher)
            (jose := ref_jose) example_settings
            {| login_username := "ada@example.org";
               login_password := "Sup3rSecret!" |}
            example_login_clock example_ambiguous_users
            7%N 9%N example_user example_shadow_user _ _ _ _ _).
  - discriminate.
  - reflexivity.
  - reflexivity.
  - by left.
  - by right.
Defined.

Lemma authenticate_never_returns_witness :
  authenticate example_settings
    {| login_username := "ada"; login_password := "Sup3rSecret!" |}
    example_login_clock example_users
  = (inl (OtherException "pydantic.ValidationError"),
     <[7%N := set_last_login_at example_user
                (at_last_login example_login_clock)]> example_users).
Proof.
  destruct (authenticate_never_returns (ph := ref_hasher) (jose := ref_jose)
              example_settings
              {| login_username := "ada"; login_password := "Sup3rSecret!" |}
              example_login_clock example_users) as [_ Hraises].
  refine (Hraises 7%N example_user
            (token_of (create_access_token example_settings
                         [("sub", VStr (uuid_str 7)); ("email", VStr "ada@example.org");
                          ("username", VStr "ada");
                          ("roles", VStrList ["manager"; "intern"])]
                         None 1000000000 1000000000))
            (token_of (create_refresh_token example_settings
                         [("sub", VStr (uuid_str 7))] None 1000000000 1000000000))
            _ _ _ _ _ _ _ _).
  - reflexivity.
  - reflexivity.
  - by right.
  - intros k' u' Hk' Hm. unfold example_users in Hk'.
    apply lookup_insert_Some in Hk' as [[<- <-]|[Hne Hk']]; [done|].
    apply lookup_singleton_Some in Hk' as [<- <-].
    destruct Hm as [Hm|Hm]; discriminate Hm.
  - reflexivity.
  - reflexivity.
  - vm_compute. reflexivity.
  - vm_compute. reflexivity.
Defined.

End LoginExamples.

(** ** Tenant-scoped loading, continued *)

Section TenantsMore.
Import Py Errors Crm CrmEntities MoreExamples.

(** X20: [get_company] returns a company exactly when the table has it
    under that id with the caller's tenant, so it never returns a company
    of another tenant; and whatever it raises is the one [NotFoundError]. *)
Theorem get_company_isolation
    (companies : gmap N Company) (company_id tenant_id : N) :
  (∀ c, get_company companies company_id tenant_id = inr c
        ↔ companies !! company_id = Some c ∧ Crm.tenant_id c = tenant_id)
  ∧ (∀ e, get_company companies company_id tenant_id = inl e →
          e = NotFoundError "Company not found" None).
Proof.
  unfold get_company, repository_get. simpl.
  destruct (companies !! company_id) as [c0|] eqn:Hlookup.
  - case_bool_decide as Hne; split.
    + intros c. split; [discriminate|]. intros [[= ->] Heq]. by destruct Hne.
    + by intros e [= <-].
    + intros c. split.
      * intros [= ->]. split; [done|].
        by destruct (decide (Crm.tenant_id c = tenant_id)); [|destruct Hne].
      * by intros [[= ->] _].
    + discriminate.
  - split.
    + intros c. split; [discriminate|]. by intros [? _].
    + by intros e [= <-].
Qed.

(** X21: contacts and deals are loaded like companies: [get_contact] and
    [get_deal] return the row exactly when it is stored under the id with
    the caller's tenant, and otherwise, for a missing id and for another
    tenant's row alike, raise one [NotFoundError] of status 404. *)
Theorem get_contact_and_get_deal_isolation
    (contacts : gmap N Contact) (deals : gmap N Deal) (entity_id tenant_id : N) :
  (∀ c, get_contact contacts entity_id tenant_id = inr c
        ↔ contacts !! entity_id = Some c ∧ contact_tenant_id c = tenant_id)
  ∧ (∀ e, get_contact contacts entity_id tenant_id = inl e →
          e = NotFoundError "Contact not found" None)
  ∧ (∀ d, get_deal deals entity_id tenant_id = inr d
          ↔ deals !! entity_id = Some d ∧ deal_tenant_id d = tenant_id)
  ∧ (∀ e, get_deal deals entity_id tenant_id = inl e →
          e = NotFoundError "Deal not found" None)
  ∧ (∀ resource,
       NotFoundError resource None
       = NexusHub {| exc_class := NotFoundError_;
                     message := resource +:+ " not found";
                     status_code := 404;
                     details := ∅ |}).
Proof.
  split; [|split; [|split; [|split]]].
  - intros c. unfold get_contact. simpl.
    destruct (contacts !! entity_id) as [c0|] eqn:Hlookup.
    + case_bool_decide as Hne; split.
      * discriminate.
      * intros [[= ->] Heq]. by destruct Hne.
      * intros [= ->]. split; [done|].
        by destruct (decide (contact_tenant_id c = tenant_id)); [|destruct Hne].
      * by intros [[= ->] _].
    + split; [discriminate|]. by intros [? _].
  - intros e. unfold get_contact. simpl.
    destruct (contacts !! entity_id) as [c0|]; [|by intros [= <-]].
    case_bool_decide; [by intros [= <-]|discriminate].
  - intros d. unfold get_deal. simpl.
    destruct (deals !! entity_id) as [d0|] eqn:Hlookup.
    + case_bool_decide as Hne; split.
      * discriminate.
      * intros [[= ->] Heq]. by destruct Hne.
      * intros [= ->]. split; [done|].
        by destruct (decide (deal_tenant_id d = tenant_id)); [|destruct Hne].
      * by intros [[= ->] _].
    + split; [discriminate|]. by intros [? _].
  - intros e. unfold get_deal. simpl.
    destruct (deals !! entity_id) as [d0|]; [|by intros [= <-]].
    case_bool_decide; [by intros [= <-]|discriminate].
  - done.
Qed.

End TenantsMore.

Section TenantExamplesMore.
Import Py Errors Crm CrmEntities Examples MoreExamples.

Lemma get_company_isolation_witness :
  get_company example_companies 7 1
  = inr {| id := 7; tenant_id := 1; name := "Acme";
           parent_company_id := None; version := 1 |}.
Proof.
  destruct (get_company_isolation example_companies 7 1) as [Hiff _].
  apply Hiff. split; reflexivity.
Defined.

Lemma get_contact_and_get_deal_isolation_witness :
  get_contact example_contacts 3 1
  = inr {| contact_id := 3; contact_tenant_id := 1;
           contact_email := Some "ada@example.org";
           contact_company_id := Some 7%N |}
  ∧ get_deal example_deals 5 1
    = inr {| deal_id := 5; deal_tenant_id := 1; deal_company_id := 7;
             deal_stage := "qualified" |}.
Proof.
  destruct (get_contact_and_get_deal_isolation example_contacts example_deals 3 1)
    as (Hcontact & _).
  destruct (get_contact_and_get_deal_isolation example_contacts example_deals 5 1)
    as (_ & _ & Hdeal & _).
  split; [apply Hcontact|apply Hdeal]; split; reflexivity.
Defined.

End TenantExamplesMore.

(** ** The exception handler *)

Section ExceptionHandler.
Import Py Errors Handlers.

(** X22: [nexushub_exception_handler] builds no response: it reads
    [exc.error_code], which no exception class of [errors.py] has, and so
    raises [AttributeError] for every such exception, whatever its class,
    message, status code and details. *)
Theorem nexushub_exception_handler_raises (exc : NexusHubException) :
  nexushub_exception_handler exc = inl (OtherException "AttributeError")
  ∧ exc_getattr exc "error_code" = inl (OtherException "AttributeError")
  ∧ exc_getattr exc "detail" = inl (OtherException "AttributeError")
  ∧ exc_getattr exc "details" = inr (ADict (details exc))
  ∧ exc_getattr exc "status_code" = inr (AInt (status_code exc)).
Proof. repeat split. Qed.

End ExceptionHandler.

(** ** Users and the catalog *)

Section UsersAndCatalog.
Import Py Permissions Notions Identity MoreExamples.

Lemma is_admin_matches_admin_read_witness :
  (is_admin example_user = true
   ↔ has_permission (roles example_user) ADMIN_READ = inr true)
  ∧ is_admin example_disabled_user = true
  ∧ has_permission (roles example_disabled_user) ADMIN_READ = inr false.
Proof.
  destruct (is_admin_matches_admin_read example_user) as [Hiff _].
  destruct (is_admin_matches_admin_read example_disabled_user) as [_ Hsuper].
  destruct (Hsuper eq_refl) as [Hadmin Hnone].
  split; [by apply Hiff|]. split; [done|].
  apply Hnone. constructor.
Defined.

End UsersAndCatalog.

